(** * Settlement cross-validation and edit recomputation

    A shallow embedding of the settlement detail page of the dashboard
    ([web/dashboard/src/app/projects/settlement/[id]/page.tsx]) together with
    the record types it imports from [lib/api.ts]:

    - [validateSettlement], the cross-validator (numeric mismatch detection);
    - [handleEditCourse] and [handleApplyEdits], the edit / recompute handlers
      of the page, as transitions of the page state;
    - the rest of the review page ([loadData], [handleSave], [handleApprove],
      [handleUnapprove], [handleSendEmail], the file name of
      [handleDownloadPdf], [formatPeriodLabel]), the rows and the bulk mail
      dialog of the settlement list page, and the ordering of the side bar's
      [CompanyList].

    Numbers.  A TypeScript [number] is an IEEE-754 double.  In the first
    part amounts are whole won, modelled as [Z] (doubles are exact on integers
    below 2^53), payout ratios are rationals [Q], and a product
    [amount * ratio] is taken exactly.  The script itself rounds a product,
    and a sum of decimal amounts, to a double.  The module [Doubles] gives the
    edit and the recomputation over the operations of [number], with
    [Doubles.binary64] the arithmetic of the script and [Doubles.exact] that
    of the first part (lemma [exact_recomputation]); what is stated on
    rounding is stated there, and the examples on decimals are run there.
    [NaN] and the infinities are outside the model.  The declared field types
    are followed: a [number] field always holds a number, so the validator's
    [x ?? 0] is [x]. *)

From Stdlib Require Import ZArith QArith Qround Lia List DecimalString.
From stdpp Require Import gmap strings list fin_maps.
From Stdlib Require Import Ascii Sorted.
From Stdlib Require Floats Uint63.

Local Open Scope Z_scope.

(** ** Numbers *)

(** [Math.round]: the nearest integer, a tie going towards +infinity. *)
Definition Math_round (x : Q) : Z := Qfloor (x + (1 # 2))%Q.

(** [a * r] for an amount [a] and a ratio [r]. *)
Definition times (a : Z) (r : Q) : Q := (inject_Z a * r)%Q.

(** An integer printed by a template literal ([`${n}`]). *)
Definition Number_toString (n : Z) : string := NilZero.string_of_int (Z.to_int n).

(** [arr.reduce((acc, c) => acc + f(c), 0)]. *)
Definition reduce_sum {A : Type} (f : A -> Z) (arr : list A) : Z :=
  fold_left (fun acc c => acc + f c) arr 0.

(** ** Records of [lib/api.ts] *)

Module CourseSummary.
Record t : Type := mk {
  course_id : string;
  course_name : string;
  revenue : Z;
  ad_cost : Z;
  contribution : Z;
  revenue_share : Z;
  section : string;
  rs_ratio : Q;
  monthly_revenue : option (gmap string Z)
}.
End CourseSummary.

Module CompanySettlement.
Record t : Type := mk {
  company_name : string;
  revenue : Z;
  ad_cost : Z;
  contribution : Z;
  revenue_share : Z;
  settlement_amount : Z;
  union_payout : Z;
  union_payout_ratio : Q;
  courses : list CourseSummary.t
}.
End CompanySettlement.

Module CompanyInfo.
Record t : Type := mk {
  company_id : string;
  name : string;
  type : string;
  biz_number : string;
  bank : string;
  account : string;
  contact_name : string;
  contact_email : string;
  tax_email : string;
  phone : string;
  address : string;
  representative : string;
  account_holder : string;
  contract_start : string;
  contract_end : string;
  revenue_share_ratio : Q;
  union_payout_ratio : Q
}.
End CompanyInfo.

Module Summary.
Record t : Type := mk {
  total_revenue : Z;
  total_ad_cost : Z;
  total_contribution : Z;
  total_settlement : Z
}.
End Summary.

Module ParseResponse.
Record t : Type := mk {
  period : string;
  extraction_date : string;
  courses : list CourseSummary.t;
  course_count : Z;
  companies : gmap string CompanySettlement.t;
  company_count : Z;
  summary : Summary.t;
  source_file : string;
  has_monthly_breakdown : bool;
  companies_info : gmap string CompanyInfo.t
}.
End ParseResponse.

(** ** The cross-validator *)

Record ValidationIssue : Type := mkIssue {
  field : string;
  expected : Z;
  actual : Z;
  diff : Z;
  message : string
}.

(** The double quote character of the message templates. *)
Definition dq : string := String (Ascii.ascii_of_nat 34) EmptyString.

Definition threshold : Z := 2.

Section Validator.

(** [formatCurrency] of [lib/format.ts] delegates to the platform's
    [Intl.NumberFormat('ko-KR', {style: 'currency', currency: 'KRW'})];
    the formatter is a parameter of the development. *)
Variable formatCurrency : Z -> string.

(** [validateSettlement]: the local [issues] array is threaded through the
    five guarded pushes and the final [forEach] over the courses. *)
Definition validateSettlement (s : CompanySettlement.t) : list ValidationIssue :=
  let issues : list ValidationIssue := [] in
  let sumRevenue := reduce_sum CourseSummary.revenue (CompanySettlement.courses s) in
  let sumAdCost := reduce_sum CourseSummary.ad_cost (CompanySettlement.courses s) in
  let sumContribution := reduce_sum CourseSummary.contribution (CompanySettlement.courses s) in
  let issues :=
    if Z.abs (sumRevenue - CompanySettlement.revenue s) >? threshold then
      issues ++ [ {|
        field := "매출액";
        expected := CompanySettlement.revenue s;
        actual := sumRevenue;
        diff := sumRevenue - CompanySettlement.revenue s;
        message :=
          "강의별 매출액 합산(" +:+ formatCurrency sumRevenue +:+
          ")이 회사 합계(" +:+ formatCurrency (CompanySettlement.revenue s) +:+
          ")와 " +:+ formatCurrency (Z.abs (sumRevenue - CompanySettlement.revenue s)) +:+
          "원 차이납니다." |} ]
    else issues in
  let issues :=
    if Z.abs (sumAdCost - CompanySettlement.ad_cost s) >? threshold then
      issues ++ [ {|
        field := "마케팅비";
        expected := CompanySettlement.ad_cost s;
        actual := sumAdCost;
        diff := sumAdCost - CompanySettlement.ad_cost s;
        message :=
          "강의별 마케팅비 합산(" +:+ formatCurrency sumAdCost +:+
          ")이 회사 합계(" +:+ formatCurrency (CompanySettlement.ad_cost s) +:+
          ")와 " +:+ formatCurrency (Z.abs (sumAdCost - CompanySettlement.ad_cost s)) +:+
          "원 차이납니다." |} ]
    else issues in
  let issues :=
    if Z.abs (sumContribution - CompanySettlement.contribution s) >? threshold then
      issues ++ [ {|
        field := "공헌이익";
        expected := CompanySettlement.contribution s;
        actual := sumContribution;
        diff := sumContribution - CompanySettlement.contribution s;
        message :=
          "강의별 공헌이익 합산(" +:+ formatCurrency sumContribution +:+
          ")이 회사 합계(" +:+ formatCurrency (CompanySettlement.contribution s) +:+
          ")와 " +:+
          formatCurrency (Z.abs (sumContribution - CompanySettlement.contribution s)) +:+
          "원 차이납니다." |} ]
    else issues in
  let expectedContribution := CompanySettlement.revenue s - CompanySettlement.ad_cost s in
  let issues :=
    if Z.abs (expectedContribution - CompanySettlement.contribution s) >? threshold then
      issues ++ [ {|
        field := "공헌이익 공식";
        expected := expectedContribution;
        actual := CompanySettlement.contribution s;
        diff := CompanySettlement.contribution s - expectedContribution;
        message :=
          "공헌이익(" +:+ formatCurrency (CompanySettlement.contribution s) +:+
          ")이 " +:+ dq +:+ "매출액 - 마케팅비" +:+ dq +:+ "(" +:+
          formatCurrency expectedContribution +:+
          ")와 일치하지 않습니다. 제작비 등 추가 비용이 포함되었을 수 있습니다." |} ]
    else issues in
  let expectedSettlement :=
    Math_round (times (CompanySettlement.contribution s)
                      (CompanySettlement.union_payout_ratio s)) in
  let issues :=
    if Z.abs (expectedSettlement - CompanySettlement.settlement_amount s) >? threshold then
      issues ++ [ {|
        field := "수익쉐어 금액";
        expected := expectedSettlement;
        actual := CompanySettlement.settlement_amount s;
        diff := CompanySettlement.settlement_amount s - expectedSettlement;
        message :=
          "수익쉐어(" +:+ formatCurrency (CompanySettlement.settlement_amount s) +:+
          ")가 " +:+ dq +:+ "공헌이익 × " +:+
          Number_toString
            (Math_round (CompanySettlement.union_payout_ratio s * inject_Z 100)%Q) +:+
          "%" +:+ dq +:+ "(" +:+ formatCurrency expectedSettlement +:+ ")와 " +:+
          formatCurrency (Z.abs (CompanySettlement.settlement_amount s - expectedSettlement)) +:+
          "원 차이납니다." |} ]
    else issues in
  let issues :=
    fold_left
      (fun (issues : list ValidationIssue) (c : CourseSummary.t) =>
         let cExpected := CourseSummary.revenue c - CourseSummary.ad_cost c in
         if Z.abs (cExpected - CourseSummary.contribution c) >? threshold then
           issues ++ [ {|
             field := "[" +:+ CourseSummary.course_name c +:+ "] 공헌이익";
             expected := cExpected;
             actual := CourseSummary.contribution c;
             diff := CourseSummary.contribution c - cExpected;
             message :=
               dq +:+ CourseSummary.course_name c +:+ dq +:+ " 강의의 공헌이익(" +:+
               formatCurrency (CourseSummary.contribution c) +:+ ")이 " +:+ dq +:+
               "매출-마케팅비" +:+ dq +:+ "(" +:+ formatCurrency cExpected +:+
               ")와 불일치합니다." |} ]
         else issues)
      (CompanySettlement.courses s) issues in
  issues.

End Validator.

(** ** The page state and its edit handlers *)

Module ApprovalStatus.
Record t : Type := mk {
  approved : bool;
  approved_at : option string;
  approved_by : option string
}.
End ApprovalStatus.

(** The [useState] cells and the route parameter the handlers close over,
    and the session storage they write ([JSON.stringify] of a value is
    represented by the value). *)
Record PageState : Type := mkPage {
  companyId : string;
  settlement : option CompanySettlement.t;
  fullData : option ParseResponse.t;
  validationIssues : list ValidationIssue;
  isEditing : bool;
  editCourses : list CourseSummary.t;
  approvalStatus : option ApprovalStatus.t;
  saveMessage : option string;
  sessionStorage : gmap string ParseResponse.t
}.

(** [approvalStatus?.approved === true]. *)
Definition isApproved (st : PageState) : bool :=
  match approvalStatus st with
  | Some a => ApprovalStatus.approved a
  | None => false
  end.

(** The field argument of [handleEditCourse]: ["revenue" | "ad_cost"]. *)
Inductive EditField : Type := Revenue | AdCost.

(** [Object.values(obj)].  The order of enumeration is that of the map and
    may differ from the insertion order of the script object; the sums taken
    over it are over integers and do not depend on the order. *)
Definition Object_values {A : Type} (obj : gmap string A) : list A :=
  (map_to_list obj).*2.

(** [handleStartEdit]: a fresh copy of the courses becomes the edit buffer,
    unless nothing is loaded or the settlement is approved (the [alert] of the
    second case is not part of the state). *)
Definition handleStartEdit (st : PageState) : PageState :=
  match settlement st with
  | None => st
  | Some s =>
      if isApproved st then st
      else
        {| companyId := companyId st;
           settlement := settlement st;
           fullData := fullData st;
           validationIssues := validationIssues st;
           isEditing := true;
           editCourses := map (fun c => c) (CompanySettlement.courses s);
           approvalStatus := approvalStatus st;
           saveMessage := saveMessage st;
           sessionStorage := sessionStorage st |}
  end.

(** [course[field] = value; course.contribution = course.revenue - course.ad_cost]. *)
Definition edit_course (field : EditField) (value : Z) (course : CourseSummary.t)
  : CourseSummary.t :=
  let course :=
    match field with
    | Revenue =>
        {| CourseSummary.course_id := CourseSummary.course_id course;
           CourseSummary.course_name := CourseSummary.course_name course;
           CourseSummary.revenue := value;
           CourseSummary.ad_cost := CourseSummary.ad_cost course;
           CourseSummary.contribution := CourseSummary.contribution course;
           CourseSummary.revenue_share := CourseSummary.revenue_share course;
           CourseSummary.section := CourseSummary.section course;
           CourseSummary.rs_ratio := CourseSummary.rs_ratio course;
           CourseSummary.monthly_revenue := CourseSummary.monthly_revenue course |}
    | AdCost =>
        {| CourseSummary.course_id := CourseSummary.course_id course;
           CourseSummary.course_name := CourseSummary.course_name course;
           CourseSummary.revenue := CourseSummary.revenue course;
           CourseSummary.ad_cost := value;
           CourseSummary.contribution := CourseSummary.contribution course;
           CourseSummary.revenue_share := CourseSummary.revenue_share course;
           CourseSummary.section := CourseSummary.section course;
           CourseSummary.rs_ratio := CourseSummary.rs_ratio course;
           CourseSummary.monthly_revenue := CourseSummary.monthly_revenue course |}
    end in
  {| CourseSummary.course_id := CourseSummary.course_id course;
     CourseSummary.course_name := CourseSummary.course_name course;
     CourseSummary.revenue := CourseSummary.revenue course;
     CourseSummary.ad_cost := CourseSummary.ad_cost course;
     CourseSummary.contribution := CourseSummary.revenue course - CourseSummary.ad_cost course;
     CourseSummary.revenue_share := CourseSummary.revenue_share course;
     CourseSummary.section := CourseSummary.section course;
     CourseSummary.rs_ratio := CourseSummary.rs_ratio course;
     CourseSummary.monthly_revenue := CourseSummary.monthly_revenue course |}.

(** The updater [handleEditCourse] passes to [setEditCourses].  The rows of
    the table call it with the index of an existing course.  For an index
    past the end the script stores an object without the remaining fields
    of a course and with a [NaN] contribution; that array is not a list of
    courses and the model returns [None] there. *)
Definition editCourses_updater (idx : nat) (field : EditField) (value : Z)
    (prev : list CourseSummary.t) : option (list CourseSummary.t) :=
  match prev !! idx with
  | Some course => Some (<[idx := edit_course field value course]> prev)
  | None => None
  end.

Definition handleEditCourse (idx : nat) (field : EditField) (value : Z)
    (st : PageState) : option PageState :=
  match editCourses_updater idx field value (editCourses st) with
  | Some updated =>
      Some {| companyId := companyId st;
              settlement := settlement st;
              fullData := fullData st;
              validationIssues := validationIssues st;
              isEditing := isEditing st;
              editCourses := updated;
              approvalStatus := approvalStatus st;
              saveMessage := saveMessage st;
              sessionStorage := sessionStorage st |}
  | None => None
  end.

(** [{ ...c, revenue_share: Math.round(c.contribution * ratio) }]. *)
Definition with_revenue_share (ratio : Q) (c : CourseSummary.t) : CourseSummary.t :=
  {| CourseSummary.course_id := CourseSummary.course_id c;
     CourseSummary.course_name := CourseSummary.course_name c;
     CourseSummary.revenue := CourseSummary.revenue c;
     CourseSummary.ad_cost := CourseSummary.ad_cost c;
     CourseSummary.contribution := CourseSummary.contribution c;
     CourseSummary.revenue_share := Math_round (times (CourseSummary.contribution c) ratio);
     CourseSummary.section := CourseSummary.section c;
     CourseSummary.rs_ratio := CourseSummary.rs_ratio c;
     CourseSummary.monthly_revenue := CourseSummary.monthly_revenue c |}.

(** The local [updatedSettlement] of [handleApplyEdits]: the company totals
    recomputed from the edit buffer. *)
Definition updatedSettlement (settlement : CompanySettlement.t)
    (editCourses : list CourseSummary.t) : CompanySettlement.t :=
  let ratio := CompanySettlement.union_payout_ratio settlement in
  let newRevenue := reduce_sum CourseSummary.revenue editCourses in
  let newAdCost := reduce_sum CourseSummary.ad_cost editCourses in
  let newContribution := reduce_sum CourseSummary.contribution editCourses in
  let newSettlementAmount := Math_round (times newContribution ratio) in
  let updatedCourses := map (with_revenue_share ratio) editCourses in
  {| CompanySettlement.company_name := CompanySettlement.company_name settlement;
     CompanySettlement.revenue := newRevenue;
     CompanySettlement.ad_cost := newAdCost;
     CompanySettlement.contribution := newContribution;
     CompanySettlement.revenue_share := reduce_sum CourseSummary.revenue_share updatedCourses;
     CompanySettlement.settlement_amount := newSettlementAmount;
     CompanySettlement.union_payout := newSettlementAmount;
     CompanySettlement.union_payout_ratio := CompanySettlement.union_payout_ratio settlement;
     CompanySettlement.courses := updatedCourses |}.

(** The local [updatedFullData] of [handleApplyEdits]: the company's entry
    replaced, the summary recomputed over all companies. *)
Definition updatedFullData (companyId : string) (fullData : ParseResponse.t)
    (updated : CompanySettlement.t) : ParseResponse.t :=
  let updatedCompanies := <[companyId := updated]> (ParseResponse.companies fullData) in
  let totalSettlement :=
    reduce_sum CompanySettlement.settlement_amount (Object_values updatedCompanies) in
  {| ParseResponse.period := ParseResponse.period fullData;
     ParseResponse.extraction_date := ParseResponse.extraction_date fullData;
     ParseResponse.courses := ParseResponse.courses fullData;
     ParseResponse.course_count := ParseResponse.course_count fullData;
     ParseResponse.companies := updatedCompanies;
     ParseResponse.company_count := ParseResponse.company_count fullData;
     ParseResponse.summary :=
       {| Summary.total_revenue :=
            reduce_sum CompanySettlement.revenue (Object_values updatedCompanies);
          Summary.total_ad_cost :=
            reduce_sum CompanySettlement.ad_cost (Object_values updatedCompanies);
          Summary.total_contribution :=
            reduce_sum CompanySettlement.contribution (Object_values updatedCompanies);
          Summary.total_settlement := totalSettlement |};
     ParseResponse.source_file := ParseResponse.source_file fullData;
     ParseResponse.has_monthly_breakdown := ParseResponse.has_monthly_breakdown fullData;
     ParseResponse.companies_info := ParseResponse.companies_info fullData |}.

Section Handlers.

Variable formatCurrency : Z -> string.

(** [handleApplyEdits].  The message is cleared again by a timer five
    seconds later; the timer is not part of the transition. *)
Definition handleApplyEdits (st : PageState) : PageState :=
  match settlement st, fullData st with
  | Some s, Some fd =>
      let updated := updatedSettlement s (editCourses st) in
      let updatedFull := updatedFullData (companyId st) fd updated in
      {| companyId := companyId st;
         settlement := Some updated;
         fullData := Some updatedFull;
         validationIssues := validateSettlement formatCurrency updated;
         isEditing := false;
         editCourses := editCourses st;
         approvalStatus := approvalStatus st;
         saveMessage :=
           Some "수정이 적용되었습니다. '임시 저장'을 눌러 서버에 저장하세요.";
         sessionStorage := <["settlementData" := updatedFull]> (sessionStorage st) |}
  | _, _ => st
  end.

End Handlers.

(** ** Vocabulary of the statements *)

(** The five company-level checks of the validator, in the order of the
    source; the per-course check is indexed by the course. *)
Inductive Check : Type :=
  | RevenueSum | AdCostSum | ContributionSum | ContributionFormula | SettlementAmount.

Definition all_checks : list Check :=
  [RevenueSum; AdCostSum; ContributionSum; ContributionFormula; SettlementAmount].

(** The [field] string each check writes into its issue. *)
Definition check_field (chk : Check) : string :=
  match chk with
  | RevenueSum => "매출액"
  | AdCostSum => "마케팅비"
  | ContributionSum => "공헌이익"
  | ContributionFormula => "공헌이익 공식"
  | SettlementAmount => "수익쉐어 금액"
  end.

(** The quantity whose absolute value each check compares with [threshold]. *)
Definition check_discrepancy (chk : Check) (s : CompanySettlement.t) : Z :=
  match chk with
  | RevenueSum =>
      reduce_sum CourseSummary.revenue (CompanySettlement.courses s)
      - CompanySettlement.revenue s
  | AdCostSum =>
      reduce_sum CourseSummary.ad_cost (CompanySettlement.courses s)
      - CompanySettlement.ad_cost s
  | ContributionSum =>
      reduce_sum CourseSummary.contribution (CompanySettlement.courses s)
      - CompanySettlement.contribution s
  | ContributionFormula =>
      (CompanySettlement.revenue s - CompanySettlement.ad_cost s)
      - CompanySettlement.contribution s
  | SettlementAmount =>
      Math_round (times (CompanySettlement.contribution s)
                        (CompanySettlement.union_payout_ratio s))
      - CompanySettlement.settlement_amount s
  end.

(** The [expected] and [actual] values each check writes into its issue. *)
Definition check_expected (chk : Check) (s : CompanySettlement.t) : Z :=
  match chk with
  | RevenueSum => CompanySettlement.revenue s
  | AdCostSum => CompanySettlement.ad_cost s
  | ContributionSum => CompanySettlement.contribution s
  | ContributionFormula => CompanySettlement.revenue s - CompanySettlement.ad_cost s
  | SettlementAmount =>
      Math_round (times (CompanySettlement.contribution s)
                        (CompanySettlement.union_payout_ratio s))
  end.

Definition check_actual (chk : Check) (s : CompanySettlement.t) : Z :=
  match chk with
  | RevenueSum => reduce_sum CourseSummary.revenue (CompanySettlement.courses s)
  | AdCostSum => reduce_sum CourseSummary.ad_cost (CompanySettlement.courses s)
  | ContributionSum => reduce_sum CourseSummary.contribution (CompanySettlement.courses s)
  | ContributionFormula => CompanySettlement.contribution s
  | SettlementAmount => CompanySettlement.settlement_amount s
  end.

Definition check_fails (chk : Check) (s : CompanySettlement.t) : bool :=
  threshold <? Z.abs (check_discrepancy chk s).

Definition course_field (c : CourseSummary.t) : string :=
  "[" +:+ CourseSummary.course_name c +:+ "] 공헌이익".

Definition course_discrepancy (c : CourseSummary.t) : Z :=
  (CourseSummary.revenue c - CourseSummary.ad_cost c) - CourseSummary.contribution c.

Definition course_fails (c : CourseSummary.t) : bool :=
  threshold <? Z.abs (course_discrepancy c).

(** An issue carrying the given [field] string is in the list. *)
Definition has_issue (f : string) (issues : list ValidationIssue) : Prop :=
  exists i, In i issues /\ field i = f.

(** The issue [i] reports [field] [f] with expected value [e] and actual
    value [a], its signed difference being actual minus expected. *)
Definition issue_describes (i : ValidationIssue) (f : string) (e a : Z) : Prop :=
  field i = f /\ expected i = e /\ actual i = a /\ diff i = a - e.

(** A course whose contribution is its revenue minus its marketing cost, as
    [handleEditCourse] leaves it. *)
Definition course_consistent (c : CourseSummary.t) : Prop :=
  CourseSummary.contribution c = CourseSummary.revenue c - CourseSummary.ad_cost c.

(** *** The formulas of the specification

    The settlement amount as the specification words it, with the full payout
    ratio chain, and round-half-to-even; both are compared with the code. *)
Definition spec_settlement_amount (margin : Z) (revenue_share_ratio union_payout_ratio : Q)
  : Z :=
  Math_round (inject_Z margin * revenue_share_ratio * union_payout_ratio)%Q.

Definition round_half_even (x : Q) : Z :=
  let f := Qfloor x in
  match (x - inject_Z f ?= 1 # 2)%Q with
  | Lt => f
  | Gt => f + 1
  | Eq => if Z.even f then f else f + 1
  end.

(** ** Sample data *)

(** A stand-in for the platform formatter, used to run the validator on
    sample data: the won sign followed by the digits. *)
Definition won (n : Z) : string := "₩" +:+ Number_toString n.

Definition sample_course (name : string) (revenue ad_cost contribution : Z)
  : CourseSummary.t :=
  {| CourseSummary.course_id := name;
     CourseSummary.course_name := name;
     CourseSummary.revenue := revenue;
     CourseSummary.ad_cost := ad_cost;
     CourseSummary.contribution := contribution;
     CourseSummary.revenue_share := 0;
     CourseSummary.section := EmptyString;
     CourseSummary.rs_ratio := 0;
     CourseSummary.monthly_revenue := None |}.

Definition sample_settlement (name : string) (revenue ad_cost contribution amount : Z)
    (ratio : Q) (courses : list CourseSummary.t) : CompanySettlement.t :=
  {| CompanySettlement.company_name := name;
     CompanySettlement.revenue := revenue;
     CompanySettlement.ad_cost := ad_cost;
     CompanySettlement.contribution := contribution;
     CompanySettlement.revenue_share := amount;
     CompanySettlement.settlement_amount := amount;
     CompanySettlement.union_payout := amount;
     CompanySettlement.union_payout_ratio := ratio;
     CompanySettlement.courses := courses |}.

Definition sample_info (id : string) (revenue_share_ratio union_payout_ratio : Q)
  : CompanyInfo.t :=
  {| CompanyInfo.company_id := id;
     CompanyInfo.name := id;
     CompanyInfo.type := EmptyString;
     CompanyInfo.biz_number := EmptyString;
     CompanyInfo.bank := EmptyString;
     CompanyInfo.account := EmptyString;
     CompanyInfo.contact_name := EmptyString;
     CompanyInfo.contact_email := EmptyString;
     CompanyInfo.tax_email := EmptyString;
     CompanyInfo.phone := EmptyString;
     CompanyInfo.address := EmptyString;
     CompanyInfo.representative := EmptyString;
     CompanyInfo.account_holder := EmptyString;
     CompanyInfo.contract_start := EmptyString;
     CompanyInfo.contract_end := EmptyString;
     CompanyInfo.revenue_share_ratio := revenue_share_ratio;
     CompanyInfo.union_payout_ratio := union_payout_ratio |}.

Definition sample_data (companies : gmap string CompanySettlement.t) : ParseResponse.t :=
  {| ParseResponse.period := "2025-Q4";
     ParseResponse.extraction_date := EmptyString;
     ParseResponse.courses := [];
     ParseResponse.course_count := 0;
     ParseResponse.companies := companies;
     ParseResponse.company_count := Z.of_nat (size companies);
     ParseResponse.summary :=
       {| Summary.total_revenue := 0; Summary.total_ad_cost := 0;
          Summary.total_contribution := 0; Summary.total_settlement := 0 |};
     ParseResponse.source_file := EmptyString;
     ParseResponse.has_monthly_breakdown := false;
     ParseResponse.companies_info := ∅ |}.

Definition sample_page (id : string) (s : CompanySettlement.t) (fd : ParseResponse.t)
    (edits : list CourseSummary.t) : PageState :=
  {| companyId := id;
     settlement := Some s;
     fullData := Some fd;
     validationIssues := [];
     isEditing := true;
     editCourses := edits;
     approvalStatus := None;
     saveMessage := None;
     sessionStorage := ∅ |}.

(** A union partner with one course of revenue 1000 and no cost, under a
    revenue share ratio of 0.75 and a union payout ratio of 0.5; [amount] is
    the settlement amount on record. *)
Definition union_course : CourseSummary.t := sample_course "course-1" 1000 0 1000.

Definition union_partner (amount : Z) : CompanySettlement.t :=
  sample_settlement "union" 1000 0 1000 amount (1 # 2) [union_course].

Definition union_info : CompanyInfo.t := sample_info "union" (3 # 4) (1 # 2).

(** A course of contribution 5 under a payout ratio of 0.5: the product is 2.5. *)
Definition half_course : CourseSummary.t := sample_course "course-1" 5 0 5.

Definition half_partner : CompanySettlement.t :=
  sample_settlement "union" 5 0 5 0 (1 # 2) [half_course].

(** 250 courses, each within the tolerance of its own check (contribution 2
    against revenue 0 and cost 0), under totals that match the course sums:
    the company contribution is 500 above revenue minus cost. *)
Definition drift_courses : list CourseSummary.t :=
  repeat (sample_course "course" 0 0 2) 250.

Definition drift_partner : CompanySettlement.t :=
  sample_settlement "partner" 0 0 500 250 (1 # 2) drift_courses.

(** A settlement that fails every company-level check and one course check. *)
Definition broken_partner : CompanySettlement.t :=
  sample_settlement "partner" 100 10 50 500 (1 # 2) [sample_course "course" 10 0 30].

(** A page showing the union partner, loaded from data that also holds a
    second company, with the partner's course in the edit buffer. *)
Definition two_companies : ParseResponse.t :=
  sample_data (<["union" := union_partner 500]> (<["other" := half_partner]> ∅)).

Definition editing_page : PageState :=
  sample_page "union" (union_partner 500) two_companies [union_course].

(** The same page with a course whose stored contribution (30) is not its
    revenue minus its cost (10 - 0) in the edit buffer. *)
Definition stale_page : PageState :=
  sample_page "union" (union_partner 500) two_companies [sample_course "course" 10 0 30].


(** ** Period labels *)

(** [\d] of a regular expression: an ASCII digit. *)
Definition is_digit (c : ascii) : bool :=
  (48 <=? nat_of_ascii c)%nat && (nat_of_ascii c <=? 57)%nat.

(** [period.match(/^(\d{4})-Q(\d)$/)]: the year and the quarter when the
    whole string is four digits, a hyphen, a [Q] and one digit.  The pattern
    is ASCII, so matching the bytes of the string is matching its
    characters. *)
Definition match_quarter (period : string) : option (string * string) :=
  match period with
  | String y1 (String y2 (String y3 (String y4
      (String hyphen (String letter (String q EmptyString)))))) =>
      if is_digit y1 && is_digit y2 && is_digit y3 && is_digit y4
         && Ascii.eqb hyphen "-"%char && Ascii.eqb letter "Q"%char && is_digit q
      then Some (String y1 (String y2 (String y3 (String y4 EmptyString))),
                 String q EmptyString)
      else None
  | _ => None
  end.

(** [formatPeriodLabel] (the same function in the detail page, the list page
    and the settlement table): ["2024-Q4"] becomes ["2024년 4분기"]. *)
Definition formatPeriodLabel (period : string) : string :=
  match match_quarter period with
  | None => period
  | Some (year, quarter) => year +:+ "년 " +:+ quarter +:+ "분기"
  end.

(** ** The settlement list page *)

(** [a || b] on strings, [a] possibly undefined: the empty string and
    [undefined] give way to [b]. *)
Definition or_else (a : option string) (b : string) : string :=
  match a with
  | Some (String c rest) => String c rest
  | _ => b
  end.

(** [arr.sort(cmp)].  The sort of the language is stable; for a comparator
    that orders by a key its result is the one stable sorted arrangement,
    computed here by insertion: an element goes before the first element it
    does not have to follow. *)
Fixpoint sort_insert {A : Type} (cmp : A -> A -> Z) (x : A) (sorted : list A) : list A :=
  match sorted with
  | [] => [x]
  | y :: rest => if cmp x y <=? 0 then x :: y :: rest else y :: sort_insert cmp x rest
  end.

Definition Array_sort {A : Type} (cmp : A -> A -> Z) (arr : list A) : list A :=
  foldr (sort_insert cmp) [] arr.

(** [([, a], [, b]) => b.settlement_amount - a.settlement_amount]. *)
Definition by_settlement_amount_desc (a b : string * CompanySettlement.t) : Z :=
  CompanySettlement.settlement_amount b.2 - CompanySettlement.settlement_amount a.2.

(** [Object.entries(obj)], in the order of enumeration of the map; the
    functions below take the entries as an argument, in whatever order the
    script object holds them. *)
Definition Object_entries {A : Type} (obj : gmap string A) : list (string * A) :=
  map_to_list obj.

Module CompanyListItem.
Record t : Type := mk {
  id : string;
  idx : Z;
  period : string;
  company : string;
  profit : Z;
  share : Z;
  ratio : Q;
  type : string;
  approved : bool;
  contactEmail : string
}.
End CompanyListItem.

(** The rows of the list page: the companies by settlement amount, largest
    first, numbered from 1. *)
Definition companyList_of (data : ParseResponse.t)
    (approvalStatus : gmap string ApprovalStatus.t)
    (entries : list (string * CompanySettlement.t)) : list CompanyListItem.t :=
  imap
    (fun (idx : nat) (entry : string * CompanySettlement.t) =>
       let id := entry.1 in
       let s := entry.2 in
       let info := ParseResponse.companies_info data !! id in
       let status := approvalStatus !! id in
       {| CompanyListItem.id := id;
          CompanyListItem.idx := Z.of_nat idx + 1;
          CompanyListItem.period := formatPeriodLabel (ParseResponse.period data);
          CompanyListItem.company :=
            or_else (CompanyInfo.name <$> info)
                    (or_else (Some (CompanySettlement.company_name s)) id);
          CompanyListItem.profit := CompanySettlement.contribution s;
          CompanyListItem.share := CompanySettlement.settlement_amount s;
          CompanyListItem.ratio := CompanySettlement.union_payout_ratio s;
          CompanyListItem.type := if String.eqb id "plusx" then "운영사" else "유니온";
          CompanyListItem.approved :=
            match status with Some a => ApprovalStatus.approved a | None => false end;
          CompanyListItem.contactEmail :=
            or_else (CompanyInfo.contact_email <$> info)
                    (or_else (CompanyInfo.tax_email <$> info) EmptyString) |})
    (Array_sort by_settlement_amount_desc entries).

Definition companyList (data : option ParseResponse.t)
    (approvalStatus : gmap string ApprovalStatus.t) : list CompanyListItem.t :=
  match data with
  | Some d => companyList_of d approvalStatus (Object_entries (ParseResponse.companies d))
  | None => []
  end.

(** [companyList.filter(c => c.approved).length]. *)
Definition approvedCount (companyList : list CompanyListItem.t) : nat :=
  length (List.filter CompanyListItem.approved companyList).

(** *** The bulk mail dialog *)

(** [companyList.filter(c => c.approved && c.id !== "plusx")]. *)
Definition approvedCompanies (companyList : list CompanyListItem.t) : list CompanyListItem.t :=
  List.filter
    (fun c => CompanyListItem.approved c && negb (String.eqb (CompanyListItem.id c) "plusx"))
    companyList.

(** The truth value of [c.contactEmail]. *)
Definition hasEmail (c : CompanyListItem.t) : bool :=
  match CompanyListItem.contactEmail c with
  | EmptyString => false
  | String _ _ => true
  end.

(** [approvedCompanies.filter(c => c.contactEmail)]. *)
Definition selectable (companyList : list CompanyListItem.t) : list CompanyListItem.t :=
  List.filter hasEmail (approvedCompanies companyList).

(** The initial value of the [selected] set. *)
Definition initial_selected (companyList : list CompanyListItem.t) : gset string :=
  list_to_set (map CompanyListItem.id (selectable companyList)).

Definition toggleSelect (id : string) (prev : gset string) : gset string :=
  if decide (id ∈ prev) then prev ∖ {[id]} else prev ∪ {[id]}.

Definition toggleAll (companyList : list CompanyListItem.t) (selected : gset string)
  : gset string :=
  if decide (size selected = length (selectable companyList)) then ∅
  else list_to_set (map CompanyListItem.id (selectable companyList)).

(** The [onChange] of the check box of a row: [hasEmail && toggleSelect(company.id)]. *)
Definition onRowChange (company : CompanyListItem.t) (selected : gset string) : gset string :=
  if hasEmail company then toggleSelect (CompanyListItem.id company) selected else selected.

(** [handleSend]: the ids passed to [sendBulkEmail], if the request is made
    at all ([confirmed] is the answer to the confirmation dialog).  The ids
    are listed in the order of the set, not in the order of selection. *)
Definition handleSend (confirmed : bool) (selected : gset string) : option (list string) :=
  if decide (size selected = 0%nat) then None
  else if confirmed then Some (elements selected)
  else None.

(** The selections the dialog can reach: the rows shown are the approved
    companies, and the header button toggles all. *)
Inductive modal_selection (companyList : list CompanyListItem.t) : gset string -> Prop :=
  | selection_initial :
      modal_selection companyList (initial_selected companyList)
  | selection_row (company : CompanyListItem.t) (selected : gset string) :
      In company (approvedCompanies companyList) ->
      modal_selection companyList selected ->
      modal_selection companyList (onRowChange company selected)
  | selection_all (selected : gset string) :
      modal_selection companyList selected ->
      modal_selection companyList (toggleAll companyList selected).

(** *** The company list of the side bar *)

(** [sorted] of the [CompanyList] component: the operating company first,
    the others by settlement amount, largest first. *)
Definition CompanyList_sorted (companies : gmap string CompanySettlement.t)
    (entries : list (string * CompanySettlement.t)) : list (string * CompanySettlement.t) :=
  let plusxEntry :=
    match companies !! "plusx" with
    | Some s => Some ("plusx", s)
    | None => None
    end in
  let others :=
    Array_sort by_settlement_amount_desc
      (List.filter (fun entry : string * CompanySettlement.t =>
                      negb (String.eqb entry.1 "plusx")) entries) in
  match plusxEntry with
  | Some entry => entry :: others
  | None => others
  end.

(** *** Sample data of the list page *)

Definition mail_info (id mail : string) : CompanyInfo.t :=
  {| CompanyInfo.company_id := id;
     CompanyInfo.name := id;
     CompanyInfo.type := EmptyString;
     CompanyInfo.biz_number := EmptyString;
     CompanyInfo.bank := EmptyString;
     CompanyInfo.account := EmptyString;
     CompanyInfo.contact_name := EmptyString;
     CompanyInfo.contact_email := mail;
     CompanyInfo.tax_email := EmptyString;
     CompanyInfo.phone := EmptyString;
     CompanyInfo.address := EmptyString;
     CompanyInfo.representative := EmptyString;
     CompanyInfo.account_holder := EmptyString;
     CompanyInfo.contract_start := EmptyString;
     CompanyInfo.contract_end := EmptyString;
     CompanyInfo.revenue_share_ratio := 3 # 4;
     CompanyInfo.union_payout_ratio := 1 # 2 |}.

(** Three companies: the operating company and two partners, one of them
    without any registered address. *)
Definition list_entries : list (string * CompanySettlement.t) :=
  [("other", half_partner); ("plusx", sample_settlement "plusx" 0 0 0 0 0 []);
   ("union", union_partner 500)].

Definition list_data : ParseResponse.t :=
  {| ParseResponse.period := "2025-Q4";
     ParseResponse.extraction_date := EmptyString;
     ParseResponse.courses := [];
     ParseResponse.course_count := 0;
     ParseResponse.companies := list_to_map list_entries;
     ParseResponse.company_count := 3;
     ParseResponse.summary :=
       {| Summary.total_revenue := 1005; Summary.total_ad_cost := 0;
          Summary.total_contribution := 1005; Summary.total_settlement := 500 |};
     ParseResponse.source_file := EmptyString;
     ParseResponse.has_monthly_breakdown := false;
     ParseResponse.companies_info :=
       <["union" := mail_info "union" "union@example.com"]>
         (<["plusx" := mail_info "plusx" "plusx@example.com"]> ∅) |}.

Definition approved_now : ApprovalStatus.t :=
  {| ApprovalStatus.approved := true;
     ApprovalStatus.approved_at := Some "2026-02-12T15:30:00";
     ApprovalStatus.approved_by := Some "admin" |}.

(** All three companies approved. *)
Definition list_status : gmap string ApprovalStatus.t :=
  <["union" := approved_now]> (<["plusx" := approved_now]> (<["other" := approved_now]> ∅)).

Definition list_rows : list CompanyListItem.t :=
  companyList_of list_data list_status list_entries.

(** ** The review page: loading, saving, approval and mail *)

(** An entry of the mail log, with the fields the page reads and writes. *)
Module EmailLogEntry.
Record t : Type := mk {
  sent_at : string;
  recipient : string;
  subject : string;
  status : string;
  pdf_filename : string
}.
End EmailLogEntry.

(** What [loadArchive] resolves to: the period data with the optional
    [approval_status], [email_log] and [remarks] the page looks for. *)
Module ArchiveData.
Record t : Type := mk {
  data : ParseResponse.t;
  approval_status : option (gmap string ApprovalStatus.t);
  email_log : option (gmap string (list EmailLogEntry.t));
  remarks : option (gmap string string)
}.
End ArchiveData.

(** The results of [approveCompany] and [sendEmail], as far as the page reads
    them. *)
Module ApproveResult.
Record t : Type := mk {
  approved_at : option string;
  pdf_file : option string
}.
End ApproveResult.

Module SendResult.
Record t : Type := mk {
  recipient : option string;
  subject : option string
}.
End SendResult.

(** A value caught by [catch (err)]: an [Error] with its message, or anything
    else. *)
Inductive Thrown : Type :=
  | ErrorObject (message : string)
  | OtherValue.

(** The outcome of an awaited call. *)
Inductive Outcome (A : Type) : Type :=
  | Resolved (a : A)
  | Rejected (err : Thrown).

Arguments Resolved {A} a.
Arguments Rejected {A} err.

(** [err instanceof Error ? err.message : fallback]. *)
Definition error_message (err : Thrown) (fallback : string) : string :=
  match err with
  | ErrorObject message => message
  | OtherValue => fallback
  end.

(** The page of the first part with the remaining [useState] cells of the
    component and the [period] of the query string.  A handler that awaits is
    taken as one step of this state: the outcomes of its calls and the answer
    to its confirmation dialog are arguments, no other event comes between,
    and the timers that clear the message later are left out. *)
Record ReviewState : Type := mkReview {
  page : PageState;
  period : string;
  companyInfo : option CompanyInfo.t;
  loading : bool;
  error : option string;
  remarks : string;
  allRemarks : gmap string string;
  isSaving : bool;
  allApprovalStatus : gmap string ApprovalStatus.t;
  isApproving : bool;
  pdfFilename : option string;
  emailLog : list EmailLogEntry.t;
  isSendingEmail : bool
}.

(** *** The setters of the cells *)

Definition on_page (f : PageState -> PageState) (rs : ReviewState) : ReviewState :=
  {| page := f (page rs); period := period rs; companyInfo := companyInfo rs;
     loading := loading rs; error := error rs; remarks := remarks rs;
     allRemarks := allRemarks rs; isSaving := isSaving rs;
     allApprovalStatus := allApprovalStatus rs; isApproving := isApproving rs;
     pdfFilename := pdfFilename rs; emailLog := emailLog rs;
     isSendingEmail := isSendingEmail rs |}.

Definition setSettlement (s : option CompanySettlement.t) : ReviewState -> ReviewState :=
  on_page (fun st =>
    {| companyId := companyId st; settlement := s; fullData := fullData st;
       validationIssues := validationIssues st; isEditing := isEditing st;
       editCourses := editCourses st; approvalStatus := approvalStatus st;
       saveMessage := saveMessage st; sessionStorage := sessionStorage st |}).

Definition setFullData (fd : option ParseResponse.t) : ReviewState -> ReviewState :=
  on_page (fun st =>
    {| companyId := companyId st; settlement := settlement st; fullData := fd;
       validationIssues := validationIssues st; isEditing := isEditing st;
       editCourses := editCourses st; approvalStatus := approvalStatus st;
       saveMessage := saveMessage st; sessionStorage := sessionStorage st |}).

Definition setValidationIssues (issues : list ValidationIssue)
  : ReviewState -> ReviewState :=
  on_page (fun st =>
    {| companyId := companyId st; settlement := settlement st; fullData := fullData st;
       validationIssues := issues; isEditing := isEditing st;
       editCourses := editCourses st; approvalStatus := approvalStatus st;
       saveMessage := saveMessage st; sessionStorage := sessionStorage st |}).

Definition setIsEditing (b : bool) : ReviewState -> ReviewState :=
  on_page (fun st =>
    {| companyId := companyId st; settlement := settlement st; fullData := fullData st;
       validationIssues := validationIssues st; isEditing := b;
       editCourses := editCourses st; approvalStatus := approvalStatus st;
       saveMessage := saveMessage st; sessionStorage := sessionStorage st |}).

Definition setApprovalStatus (a : option ApprovalStatus.t) : ReviewState -> ReviewState :=
  on_page (fun st =>
    {| companyId := companyId st; settlement := settlement st; fullData := fullData st;
       validationIssues := validationIssues st; isEditing := isEditing st;
       editCourses := editCourses st; approvalStatus := a;
       saveMessage := saveMessage st; sessionStorage := sessionStorage st |}).

Definition setSaveMessage (msg : option string) : ReviewState -> ReviewState :=
  on_page (fun st =>
    {| companyId := companyId st; settlement := settlement st; fullData := fullData st;
       validationIssues := validationIssues st; isEditing := isEditing st;
       editCourses := editCourses st; approvalStatus := approvalStatus st;
       saveMessage := msg; sessionStorage := sessionStorage st |}).

Definition setCompanyInfo (info : option CompanyInfo.t) (rs : ReviewState) : ReviewState :=
  {| page := page rs; period := period rs; companyInfo := info;
     loading := loading rs; error := error rs; remarks := remarks rs;
     allRemarks := allRemarks rs; isSaving := isSaving rs;
     allApprovalStatus := allApprovalStatus rs; isApproving := isApproving rs;
     pdfFilename := pdfFilename rs; emailLog := emailLog rs;
     isSendingEmail := isSendingEmail rs |}.

Definition setLoading (b : bool) (rs : ReviewState) : ReviewState :=
  {| page := page rs; period := period rs; companyInfo := companyInfo rs;
     loading := b; error := error rs; remarks := remarks rs;
     allRemarks := allRemarks rs; isSaving := isSaving rs;
     allApprovalStatus := allApprovalStatus rs; isApproving := isApproving rs;
     pdfFilename := pdfFilename rs; emailLog := emailLog rs;
     isSendingEmail := isSendingEmail rs |}.

Definition setError (e : option string) (rs : ReviewState) : ReviewState :=
  {| page := page rs; period := period rs; companyInfo := companyInfo rs;
     loading := loading rs; error := e; remarks := remarks rs;
     allRemarks := allRemarks rs; isSaving := isSaving rs;
     allApprovalStatus := allApprovalStatus rs; isApproving := isApproving rs;
     pdfFilename := pdfFilename rs; emailLog := emailLog rs;
     isSendingEmail := isSendingEmail rs |}.

Definition setRemarks (r : string) (rs : ReviewState) : ReviewState :=
  {| page := page rs; period := period rs; companyInfo := companyInfo rs;
     loading := loading rs; error := error rs; remarks := r;
     allRemarks := allRemarks rs; isSaving := isSaving rs;
     allApprovalStatus := allApprovalStatus rs; isApproving := isApproving rs;
     pdfFilename := pdfFilename rs; emailLog := emailLog rs;
     isSendingEmail := isSendingEmail rs |}.

Definition setAllRemarks (m : gmap string string) (rs : ReviewState) : ReviewState :=
  {| page := page rs; period := period rs; companyInfo := companyInfo rs;
     loading := loading rs; error := error rs; remarks := remarks rs;
     allRemarks := m; isSaving := isSaving rs;
     allApprovalStatus := allApprovalStatus rs; isApproving := isApproving rs;
     pdfFilename := pdfFilename rs; emailLog := emailLog rs;
     isSendingEmail := isSendingEmail rs |}.

Definition setIsSaving (b : bool) (rs : ReviewState) : ReviewState :=
  {| page := page rs; period := period rs; companyInfo := companyInfo rs;
     loading := loading rs; error := error rs; remarks := remarks rs;
     allRemarks := allRemarks rs; isSaving := b;
     allApprovalStatus := allApprovalStatus rs; isApproving := isApproving rs;
     pdfFilename := pdfFilename rs; emailLog := emailLog rs;
     isSendingEmail := isSendingEmail rs |}.

Definition setAllApprovalStatus (m : gmap string ApprovalStatus.t) (rs : ReviewState)
  : ReviewState :=
  {| page := page rs; period := period rs; companyInfo := companyInfo rs;
     loading := loading rs; error := error rs; remarks := remarks rs;
     allRemarks := allRemarks rs; isSaving := isSaving rs;
     allApprovalStatus := m; isApproving := isApproving rs;
     pdfFilename := pdfFilename rs; emailLog := emailLog rs;
     isSendingEmail := isSendingEmail rs |}.

Definition setIsApproving (b : bool) (rs : ReviewState) : ReviewState :=
  {| page := page rs; period := period rs; companyInfo := companyInfo rs;
     loading := loading rs; error := error rs; remarks := remarks rs;
     allRemarks := allRemarks rs; isSaving := isSaving rs;
     allApprovalStatus := allApprovalStatus rs; isApproving := b;
     pdfFilename := pdfFilename rs; emailLog := emailLog rs;
     isSendingEmail := isSendingEmail rs |}.

Definition setPdfFilename (f : option string) (rs : ReviewState) : ReviewState :=
  {| page := page rs; period := period rs; companyInfo := companyInfo rs;
     loading := loading rs; error := error rs; remarks := remarks rs;
     allRemarks := allRemarks rs; isSaving := isSaving rs;
     allApprovalStatus := allApprovalStatus rs; isApproving := isApproving rs;
     pdfFilename := f; emailLog := emailLog rs;
     isSendingEmail := isSendingEmail rs |}.

Definition setEmailLog (l : list EmailLogEntry.t) (rs : ReviewState) : ReviewState :=
  {| page := page rs; period := period rs; companyInfo := companyInfo rs;
     loading := loading rs; error := error rs; remarks := remarks rs;
     allRemarks := allRemarks rs; isSaving := isSaving rs;
     allApprovalStatus := allApprovalStatus rs; isApproving := isApproving rs;
     pdfFilename := pdfFilename rs; emailLog := l;
     isSendingEmail := isSendingEmail rs |}.

Definition setIsSendingEmail (b : bool) (rs : ReviewState) : ReviewState :=
  {| page := page rs; period := period rs; companyInfo := companyInfo rs;
     loading := loading rs; error := error rs; remarks := remarks rs;
     allRemarks := allRemarks rs; isSaving := isSaving rs;
     allApprovalStatus := allApprovalStatus rs; isApproving := isApproving rs;
     pdfFilename := pdfFilename rs; emailLog := emailLog rs;
     isSendingEmail := b |}.

(** The truth value of a string: the empty string is false. *)
Definition nonempty (s : string) : bool :=
  match s with
  | EmptyString => false
  | String _ _ => true
  end.

(** [a || null] for an optional string. *)
Definition truthy (a : option string) : option string :=
  match a with
  | Some (String c rest) => Some (String c rest)
  | _ => None
  end.

(** *** Loading *)

(** The cached period data, when it is of the period of the page and holds
    the company ([parsed.period === period && parsed.companies[companyId]]). *)
Definition cache_hit (rs : ReviewState) : option (ParseResponse.t * CompanySettlement.t) :=
  match sessionStorage (page rs) !! "settlementData" with
  | Some parsed =>
      if String.eqb (ParseResponse.period parsed) (period rs) then
        match ParseResponse.companies parsed !! companyId (page rs) with
        | Some s => Some (parsed, s)
        | None => None
        end
      else None
  | None => None
  end.

Definition restore_approval (id : string) (a : ArchiveData.t) (rs : ReviewState)
  : ReviewState :=
  match ArchiveData.approval_status a with
  | Some m => setApprovalStatus (m !! id) (setAllApprovalStatus m rs)
  | None => rs
  end.

Definition restore_email_log (id : string) (a : ArchiveData.t) (rs : ReviewState)
  : ReviewState :=
  match ArchiveData.email_log a with
  | Some m => match m !! id with Some l => setEmailLog l rs | None => rs end
  | None => rs
  end.

Definition restore_remarks (id : string) (a : ArchiveData.t) (rs : ReviewState)
  : ReviewState :=
  match ArchiveData.remarks a with
  | Some m => setRemarks (or_else (m !! id) EmptyString) (setAllRemarks m rs)
  | None => rs
  end.

Definition not_found_message : string :=
  "정산 데이터를 찾을 수 없습니다. 정산 목록에서 PDF를 업로드하거나 데이터를 저장해주세요.".

(** The body of [handleDownloadPdf] up to the file name it asks for; [None]
    when the page has no period. *)
Definition String_slice (start : nat) (s : string) : string :=
  String.substring start (String.length s - start) s.

Definition download_filename (rs : ReviewState) : option string :=
  if nonempty (period rs) then
    let name :=
      or_else (CompanyInfo.name <$> companyInfo rs)
              (or_else (CompanySettlement.company_name <$> settlement (page rs))
                       (companyId (page rs))) in
    let yearMatch := match_quarter (period rs) in
    let yearShort :=
      match yearMatch with Some (year, _) => String_slice 2 year | None => EmptyString end in
    let q := match yearMatch with Some (_, quarter) => quarter | None => EmptyString end in
    Some (or_else (pdfFilename rs)
                  ("쉐어엑스_ " +:+ name +:+ " " +:+ yearShort +:+ "년 " +:+ q +:+
                   "Q 정산서.pdf"))
  else None.

(** The body of the request [handleSave] and [handleApprove] pass to
    [saveArchive]. *)
Module ArchiveRequest.
Record t : Type := mk {
  period : string;
  companies : gmap string CompanySettlement.t;
  summary : Summary.t;
  source_file : string;
  remarks : gmap string string
}.
End ArchiveRequest.

Definition saveArchive_request (rs : ReviewState) : option ArchiveRequest.t :=
  match fullData (page rs) with
  | Some fd =>
      Some {| ArchiveRequest.period := ParseResponse.period fd;
              ArchiveRequest.companies := ParseResponse.companies fd;
              ArchiveRequest.summary := ParseResponse.summary fd;
              ArchiveRequest.source_file := ParseResponse.source_file fd;
              ArchiveRequest.remarks :=
                <[companyId (page rs) := remarks rs]> (allRemarks rs) |}
  | None => None
  end.

(** [Object.values(allApprovalStatus).filter(s => s.approved).length]. *)
Definition review_approvedCount (rs : ReviewState) : nat :=
  length (List.filter ApprovalStatus.approved (Object_values (allApprovalStatus rs))).

Section ReviewHandlers.

Variable formatCurrency : Z -> string.

(** [loadData]: the cache of the session first, the archive otherwise;
    [archive] is the outcome of the one [loadArchive] call of the run. *)
Definition loadData (archive : Outcome ArchiveData.t) (rs : ReviewState) : ReviewState :=
  let id := companyId (page rs) in
  let rs := setLoading true rs in
  let rs := setError None rs in
  let not_found (rs : ReviewState) :=
    setLoading false (setError (Some not_found_message) rs) in
  match cache_hit rs with
  | Some (parsed, s) =>
      let rs := setFullData (Some parsed) rs in
      let rs := setSettlement (Some s) rs in
      let rs := setCompanyInfo (ParseResponse.companies_info parsed !! id) rs in
      let rs := setValidationIssues (validateSettlement formatCurrency s) rs in
      let rs := setLoading false rs in
      match archive with
      | Resolved a =>
          let rs := restore_approval id a rs in
          let rs := restore_email_log id a rs in
          restore_remarks id a rs
      | Rejected _ => rs
      end
  | None =>
      if nonempty (period rs) then
        match archive with
        | Resolved a =>
            match ParseResponse.companies (ArchiveData.data a) !! id with
            | Some s =>
                let rs := setFullData (Some (ArchiveData.data a)) rs in
                let rs := setSettlement (Some s) rs in
                let rs :=
                  setCompanyInfo
                    (ParseResponse.companies_info (ArchiveData.data a) !! id) rs in
                let rs := setValidationIssues (validateSettlement formatCurrency s) rs in
                let rs := restore_remarks id a rs in
                let rs := restore_approval id a rs in
                let rs := restore_email_log id a rs in
                setLoading false rs
            | None => not_found rs
            end
        | Rejected _ => not_found rs
        end
      else not_found rs
  end.

(** [handleSave] of the review page. *)
Definition handleSave (saved : Outcome unit) (rs : ReviewState) : ReviewState :=
  match fullData (page rs) with
  | None => rs
  | Some _ =>
      let updatedRemarks := <[companyId (page rs) := remarks rs]> (allRemarks rs) in
      let rs := setIsSaving true rs in
      let rs := setSaveMessage None rs in
      let rs :=
        match saved with
        | Resolved _ =>
            let rs := setAllRemarks updatedRemarks rs in
            setSaveMessage (Some "저장되었습니다.") rs
        | Rejected err => setSaveMessage (Some (error_message err "저장 실패")) rs
        end in
      setIsSaving false rs
  end.

(** [handleApprove]: the archive is saved first, then the approval is
    requested. *)
Definition handleApprove (confirmed : bool) (saved : Outcome unit)
    (approved : Outcome ApproveResult.t) (rs : ReviewState) : ReviewState :=
  match fullData (page rs) with
  | None => rs
  | Some _ =>
      if negb confirmed then rs
      else
        let id := companyId (page rs) in
        let updatedRemarks := <[id := remarks rs]> (allRemarks rs) in
        let rs := setIsApproving true rs in
        let rs := setSaveMessage None rs in
        let rs :=
          match saved with
          | Rejected err => setSaveMessage (Some (error_message err "승인 처리 실패")) rs
          | Resolved _ =>
              let rs := setAllRemarks updatedRemarks rs in
              match approved with
              | Rejected err =>
                  setSaveMessage (Some (error_message err "승인 처리 실패")) rs
              | Resolved result =>
                  let newStatus :=
                    {| ApprovalStatus.approved := true;
                       ApprovalStatus.approved_at := ApproveResult.approved_at result;
                       ApprovalStatus.approved_by := Some "admin" |} in
                  let rs := setApprovalStatus (Some newStatus) rs in
                  let rs :=
                    setAllApprovalStatus (<[id := newStatus]> (allApprovalStatus rs)) rs in
                  let rs := setPdfFilename (truthy (ApproveResult.pdf_file result)) rs in
                  setSaveMessage (Some "승인 완료. PDF가 생성되었습니다.") rs
              end
          end in
        setIsApproving false rs
  end.

(** [handleUnapprove]. *)
Definition handleUnapprove (confirmed : bool) (unapproved : Outcome unit)
    (rs : ReviewState) : ReviewState :=
  if negb confirmed then rs
  else
    let id := companyId (page rs) in
    let rs := setIsApproving true rs in
    let rs := setSaveMessage None rs in
    let rs :=
      match unapproved with
      | Resolved _ =>
          let newStatus :=
            {| ApprovalStatus.approved := false;
               ApprovalStatus.approved_at := None;
               ApprovalStatus.approved_by := None |} in
          let rs := setApprovalStatus (Some newStatus) rs in
          let rs := setAllApprovalStatus (<[id := newStatus]> (allApprovalStatus rs)) rs in
          let rs := setPdfFilename None rs in
          setSaveMessage (Some "승인이 해제되었습니다.") rs
      | Rejected err => setSaveMessage (Some (error_message err "승인 해제 실패")) rs
      end in
    setIsApproving false rs.

(** [handleSendEmail]; [now] is [new Date().toISOString()] at the time of the
    answer. *)
Definition handleSendEmail (confirmed : bool) (now : string) (sent : Outcome SendResult.t)
    (rs : ReviewState) : ReviewState :=
  if negb (nonempty (period rs)) then rs
  else
    let email :=
      or_else (CompanyInfo.contact_email <$> companyInfo rs)
              (or_else (CompanyInfo.tax_email <$> companyInfo rs) EmptyString) in
    if negb (nonempty email) then rs
    else if negb confirmed then rs
    else
      let rs := setIsSendingEmail true rs in
      let rs := setSaveMessage None rs in
      let rs :=
        match sent with
        | Resolved result =>
            let newLogEntry :=
              {| EmailLogEntry.sent_at := now;
                 EmailLogEntry.recipient := or_else (SendResult.recipient result) email;
                 EmailLogEntry.subject :=
                   or_else (SendResult.subject result) EmptyString;
                 EmailLogEntry.status := "sent";
                 EmailLogEntry.pdf_filename := EmptyString |} in
            let rs := setEmailLog (emailLog rs ++ [newLogEntry]) rs in
            setSaveMessage
              (Some ("이메일 발송 완료 (" +:+ or_else (SendResult.recipient result) email
                     +:+ ")")) rs
        | Rejected err => setSaveMessage (Some (error_message err "이메일 발송 실패")) rs
        end in
      setIsSendingEmail false rs.

(** One event of the review page. *)
Inductive review_step : ReviewState -> ReviewState -> Prop :=
  | step_load (archive : Outcome ArchiveData.t) (rs : ReviewState) :
      review_step rs (loadData archive rs)
  | step_start_edit (rs : ReviewState) :
      review_step rs (on_page handleStartEdit rs)
  | step_edit (idx : nat) (fld : EditField) (value : Z) (rs : ReviewState)
      (st' : PageState) :
      handleEditCourse idx fld value (page rs) = Some st' ->
      review_step rs (on_page (fun _ => st') rs)
  | step_cancel_edit (rs : ReviewState) :
      review_step rs (setIsEditing false rs)
  | step_apply_edits (rs : ReviewState) :
      review_step rs (on_page (handleApplyEdits formatCurrency) rs)
  | step_type_remarks (text : string) (rs : ReviewState) :
      review_step rs (setRemarks text rs)
  | step_save (saved : Outcome unit) (rs : ReviewState) :
      review_step rs (handleSave saved rs)
  | step_approve (confirmed : bool) (saved : Outcome unit)
      (approved : Outcome ApproveResult.t) (rs : ReviewState) :
      review_step rs (handleApprove confirmed saved approved rs)
  | step_unapprove (confirmed : bool) (unapproved : Outcome unit) (rs : ReviewState) :
      review_step rs (handleUnapprove confirmed unapproved rs)
  | step_send_email (confirmed : bool) (now : string) (sent : Outcome SendResult.t)
      (rs : ReviewState) :
      review_step rs (handleSendEmail confirmed now sent rs).

End ReviewHandlers.

(** The page as it is mounted, for a company and a period, over the session
    storage of the browser. *)
Definition initial_review (id period : string) (storage : gmap string ParseResponse.t)
  : ReviewState :=
  {| page :=
       {| companyId := id; settlement := None; fullData := None;
          validationIssues := []; isEditing := false; editCourses := [];
          approvalStatus := None; saveMessage := None; sessionStorage := storage |};
     period := period;
     companyInfo := None;
     loading := true;
     error := None;
     remarks := EmptyString;
     allRemarks := ∅;
     isSaving := false;
     allApprovalStatus := ∅;
     isApproving := false;
     pdfFilename := None;
     emailLog := [];
     isSendingEmail := false |}.

(** The states the page reaches from its mount. *)
Inductive review_reachable (formatCurrency : Z -> string) (id period : string)
    (storage : gmap string ParseResponse.t) : ReviewState -> Prop :=
  | reachable_initial :
      review_reachable formatCurrency id period storage (initial_review id period storage)
  | reachable_step (rs rs' : ReviewState) :
      review_reachable formatCurrency id period storage rs ->
      review_step formatCurrency rs rs' ->
      review_reachable formatCurrency id period storage rs'.

(** What the page keeps true: the settlement shown is the entry of the
    company in the data shown, the issues shown are those of the settlement
    shown, and the approval shown is the entry of the company in the map of
    all approvals. *)
Definition review_coherent (formatCurrency : Z -> string) (rs : ReviewState) : Prop :=
  match settlement (page rs), fullData (page rs) with
  | Some s, Some fd =>
      ParseResponse.companies fd !! companyId (page rs) = Some s
      /\ validationIssues (page rs) = validateSettlement formatCurrency s
  | None, None => validationIssues (page rs) = []
  | _, _ => False
  end
  /\ approvalStatus (page rs) = allApprovalStatus rs !! companyId (page rs).

(** The review page of the union partner after loading [list_data] from the
    cache of the session, the archive being unreachable. *)
Definition loaded_review : ReviewState :=
  loadData won (Rejected OtherValue)
    (initial_review "union" "2025-Q4" (<["settlementData" := list_data]> ∅)).

(** ** The recomputation in the arithmetic of [number]

    The first part takes amounts as whole won and products exactly.  The
    script computes in IEEE-754 doubles: a sum or a product is rounded to a
    double before [Math.round] sees it, and the editor accepts decimals.
    Here the edit and the recomputation are given over the operations of
    [number] themselves, with two arithmetics: [binary64], that of the
    script, and [exact], that of the first part. *)

Module Doubles.

(** What the handlers use of [number]: the literal [0], [+], [-], [*], and
    the number a decimal is read as.  [value] is the rational a finite number
    stands for; it serves the statements and [Math.round], and is not an
    operation of the script. *)
Class Arithmetic : Type := {
  number : Type;
  zero : number;
  add : number -> number -> number;
  sub : number -> number -> number;
  mul : number -> number -> number;
  of_Q : Q -> number;
  value : number -> Q
}.

(** The rational of a finite double; 0 stands in for [NaN] and the
    infinities, which the amounts of a settlement never are. *)
Definition float_value (x : PrimFloat.float) : Q :=
  match FloatOps.Prim2SF x with
  | SpecFloat.S754_finite sign m e =>
      let n := if sign then Z.neg m else Z.pos m in
      if 0 <=? e then inject_Z (n * 2 ^ e) else Qmake n (2 ^ Z.to_pos (- e))
  | _ => 0%Q
  end.

(** The double of an integer (exact below 2^53 in magnitude). *)
Definition float_of_Z (z : Z) : PrimFloat.float :=
  if z <? 0 then PrimFloat.opp (PrimFloat.of_uint63 (Uint63.of_Z (- z)))
  else PrimFloat.of_uint63 (Uint63.of_Z z).

(** The double nearest to the decimal [n / d]: numerator and denominator are
    exact doubles and the division is rounded correctly. *)
Definition float_of_Q (q : Q) : PrimFloat.float :=
  PrimFloat.div (float_of_Z (Qnum q)) (float_of_Z (Z.pos (Qden q))).

(** IEEE-754 binary64 with round-to-nearest-even, the arithmetic of the
    script. *)
Definition binary64 : Arithmetic :=
  {| number := PrimFloat.float;
     zero := PrimFloat.zero;
     add := PrimFloat.add;
     sub := PrimFloat.sub;
     mul := PrimFloat.mul;
     of_Q := float_of_Q;
     value := float_value |}.

(** The arithmetic of the rationals, where no operation rounds. *)
Definition exact : Arithmetic :=
  {| number := Q;
     zero := 0%Q;
     add := Qplus;
     sub := Qminus;
     mul := Qmult;
     of_Q := fun q => q;
     value := fun q => q |}.

Module CourseSummary.
Record t {A : Arithmetic} : Type := mk {
  course_id : string;
  course_name : string;
  revenue : number;
  ad_cost : number;
  contribution : number;
  revenue_share : number;
  section : string;
  rs_ratio : number;
  monthly_revenue : option (gmap string number)
}.
End CourseSummary.

Module CompanySettlement.
Record t {A : Arithmetic} : Type := mk {
  company_name : string;
  revenue : number;
  ad_cost : number;
  contribution : number;
  revenue_share : number;
  settlement_amount : number;
  union_payout : number;
  union_payout_ratio : number;
  courses : list CourseSummary.t
}.
End CompanySettlement.

Section Recomputation.

Context {A : Arithmetic}.

(** [Math.round]: the integer nearest to the number, a tie going towards
    +infinity; first the integer as such, then the number the script gets. *)
Definition nearest_integer (x : number) : Z := Math_round (value x).

Definition Math_round (x : number) : number := of_Q (inject_Z (nearest_integer x)).

(** [arr.reduce((acc, c) => acc + f(c), 0)]. *)
Definition reduce_sum {B : Type} (f : B -> number) (arr : list B) : number :=
  fold_left (fun acc c => add acc (f c)) arr zero.

(** [course[field] = value; course.contribution = course.revenue - course.ad_cost]. *)
Definition edit_course (field : EditField) (v : number) (course : CourseSummary.t)
  : CourseSummary.t :=
  let course :=
    match field with
    | Revenue =>
        {| CourseSummary.course_id := CourseSummary.course_id course;
           CourseSummary.course_name := CourseSummary.course_name course;
           CourseSummary.revenue := v;
           CourseSummary.ad_cost := CourseSummary.ad_cost course;
           CourseSummary.contribution := CourseSummary.contribution course;
           CourseSummary.revenue_share := CourseSummary.revenue_share course;
           CourseSummary.section := CourseSummary.section course;
           CourseSummary.rs_ratio := CourseSummary.rs_ratio course;
           CourseSummary.monthly_revenue := CourseSummary.monthly_revenue course |}
    | AdCost =>
        {| CourseSummary.course_id := CourseSummary.course_id course;
           CourseSummary.course_name := CourseSummary.course_name course;
           CourseSummary.revenue := CourseSummary.revenue course;
           CourseSummary.ad_cost := v;
           CourseSummary.contribution := CourseSummary.contribution course;
           CourseSummary.revenue_share := CourseSummary.revenue_share course;
           CourseSummary.section := CourseSummary.section course;
           CourseSummary.rs_ratio := CourseSummary.rs_ratio course;
           CourseSummary.monthly_revenue := CourseSummary.monthly_revenue course |}
    end in
  {| CourseSummary.course_id := CourseSummary.course_id course;
     CourseSummary.course_name := CourseSummary.course_name course;
     CourseSummary.revenue := CourseSummary.revenue course;
     CourseSummary.ad_cost := CourseSummary.ad_cost course;
     CourseSummary.contribution :=
       sub (CourseSummary.revenue course) (CourseSummary.ad_cost course);
     CourseSummary.revenue_share := CourseSummary.revenue_share course;
     CourseSummary.section := CourseSummary.section course;
     CourseSummary.rs_ratio := CourseSummary.rs_ratio course;
     CourseSummary.monthly_revenue := CourseSummary.monthly_revenue course |}.

(** The updater of [handleEditCourse], on the indices of the buffer. *)
Definition editCourses_updater (idx : nat) (field : EditField) (v : number)
    (prev : list CourseSummary.t) : option (list CourseSummary.t) :=
  match prev !! idx with
  | Some course => Some (<[idx := edit_course field v course]> prev)
  | None => None
  end.

(** [{ ...c, revenue_share: Math.round(c.contribution * ratio) }]. *)
Definition with_revenue_share (ratio : number) (c : CourseSummary.t) : CourseSummary.t :=
  {| CourseSummary.course_id := CourseSummary.course_id c;
     CourseSummary.course_name := CourseSummary.course_name c;
     CourseSummary.revenue := CourseSummary.revenue c;
     CourseSummary.ad_cost := CourseSummary.ad_cost c;
     CourseSummary.contribution := CourseSummary.contribution c;
     CourseSummary.revenue_share := Math_round (mul (CourseSummary.contribution c) ratio);
     CourseSummary.section := CourseSummary.section c;
     CourseSummary.rs_ratio := CourseSummary.rs_ratio c;
     CourseSummary.monthly_revenue := CourseSummary.monthly_revenue c |}.

(** The local [updatedSettlement] of [handleApplyEdits]. *)
Definition updatedSettlement (settlement : CompanySettlement.t)
    (editCourses : list CourseSummary.t) : CompanySettlement.t :=
  let ratio := CompanySettlement.union_payout_ratio settlement in
  let newRevenue := reduce_sum CourseSummary.revenue editCourses in
  let newAdCost := reduce_sum CourseSummary.ad_cost editCourses in
  let newContribution := reduce_sum CourseSummary.contribution editCourses in
  let newSettlementAmount := Math_round (mul newContribution ratio) in
  let updatedCourses := map (with_revenue_share ratio) editCourses in
  {| CompanySettlement.company_name := CompanySettlement.company_name settlement;
     CompanySettlement.revenue := newRevenue;
     CompanySettlement.ad_cost := newAdCost;
     CompanySettlement.contribution := newContribution;
     CompanySettlement.revenue_share := reduce_sum CourseSummary.revenue_share updatedCourses;
     CompanySettlement.settlement_amount := newSettlementAmount;
     CompanySettlement.union_payout := newSettlementAmount;
     CompanySettlement.union_payout_ratio := CompanySettlement.union_payout_ratio settlement;
     CompanySettlement.courses := updatedCourses |}.

(** The local [expectedSettlement] of [validateSettlement]. *)
Definition expectedSettlement (s : CompanySettlement.t) : number :=
  Math_round (mul (CompanySettlement.contribution s) (CompanySettlement.union_payout_ratio s)).

End Recomputation.

End Doubles.

(** A course and a settlement of the first part (whole amounts, decimal
    ratios) as numbers of an arithmetic. *)
Definition of_course {A : Doubles.Arithmetic} (c : CourseSummary.t)
  : Doubles.CourseSummary.t :=
  {| Doubles.CourseSummary.course_id := CourseSummary.course_id c;
     Doubles.CourseSummary.course_name := CourseSummary.course_name c;
     Doubles.CourseSummary.revenue := Doubles.of_Q (inject_Z (CourseSummary.revenue c));
     Doubles.CourseSummary.ad_cost := Doubles.of_Q (inject_Z (CourseSummary.ad_cost c));
     Doubles.CourseSummary.contribution :=
       Doubles.of_Q (inject_Z (CourseSummary.contribution c));
     Doubles.CourseSummary.revenue_share :=
       Doubles.of_Q (inject_Z (CourseSummary.revenue_share c));
     Doubles.CourseSummary.section := CourseSummary.section c;
     Doubles.CourseSummary.rs_ratio := Doubles.of_Q (CourseSummary.rs_ratio c);
     Doubles.CourseSummary.monthly_revenue :=
       (fun m : gmap string Z => (fun z : Z => Doubles.of_Q (inject_Z z)) <$> m)
         <$> CourseSummary.monthly_revenue c |}.

Definition of_settlement {A : Doubles.Arithmetic} (s : CompanySettlement.t)
  : Doubles.CompanySettlement.t :=
  {| Doubles.CompanySettlement.company_name := CompanySettlement.company_name s;
     Doubles.CompanySettlement.revenue := Doubles.of_Q (inject_Z (CompanySettlement.revenue s));
     Doubles.CompanySettlement.ad_cost := Doubles.of_Q (inject_Z (CompanySettlement.ad_cost s));
     Doubles.CompanySettlement.contribution :=
       Doubles.of_Q (inject_Z (CompanySettlement.contribution s));
     Doubles.CompanySettlement.revenue_share :=
       Doubles.of_Q (inject_Z (CompanySettlement.revenue_share s));
     Doubles.CompanySettlement.settlement_amount :=
       Doubles.of_Q (inject_Z (CompanySettlement.settlement_amount s));
     Doubles.CompanySettlement.union_payout :=
       Doubles.of_Q (inject_Z (CompanySettlement.union_payout s));
     Doubles.CompanySettlement.union_payout_ratio :=
       Doubles.of_Q (CompanySettlement.union_payout_ratio s);
     Doubles.CompanySettlement.courses := map of_course (CompanySettlement.courses s) |}.

(** *** Sample data of the recomputation *)

(** A course of the buffer after the user typed its revenue and its cost. *)
Definition typed_course {A : Doubles.Arithmetic} (revenue ad_cost : Q)
  : Doubles.CourseSummary.t :=
  Doubles.edit_course AdCost (Doubles.of_Q ad_cost)
    (Doubles.edit_course Revenue (Doubles.of_Q revenue)
       (of_course (sample_course "course" 0 0 0))).

(** The totals the script recomputes in binary64, under a decimal payout
    ratio, from a buffer whose courses were all typed in: revenue, cost,
    contribution and settlement amount, each as the rational it is. *)
Definition binary64_totals (ratio : Q) (typed : list (Q * Q)) : Q * Q * Q * Q :=
  let u :=
    Doubles.updatedSettlement (A := Doubles.binary64)
      (of_settlement (sample_settlement "partner" 0 0 0 0 ratio []))
      (map (fun rc => typed_course rc.1 rc.2) typed) in
  (Qred (Doubles.value (Doubles.CompanySettlement.revenue u)),
   Qred (Doubles.value (Doubles.CompanySettlement.ad_cost u)),
   Qred (Doubles.value (Doubles.CompanySettlement.contribution u)),
   Qred (Doubles.value (Doubles.CompanySettlement.settlement_amount u))).

Definition binary64_amount (ratio : Q) (typed : list (Q * Q)) : Q :=
  (binary64_totals ratio typed).2.

(** A run of [handleEditCourse] calls on the buffer, the first call first. *)
Fixpoint editCourses_run (calls : list (nat * EditField * Z)) (buffer : list CourseSummary.t)
  : option (list CourseSummary.t) :=
  match calls with
  | [] => Some buffer
  | (idx, field, value) :: rest =>
      match editCourses_updater idx field value buffer with
      | Some updated => editCourses_run rest updated
      | None => None
      end
  end.


(** A settlement of two courses, the second stored with a contribution of 30
    against a revenue of 10 and no cost, and the page that shows it. *)
Definition stale_partner : CompanySettlement.t :=
  sample_settlement "union" 1010 0 1030 515 (1 # 2)
    [union_course; sample_course "course" 10 0 30].

Definition stale_loaded_page : PageState :=
  {| companyId := "union";
     settlement := Some stale_partner;
     fullData := Some (sample_data (<["union" := stale_partner]> ∅));
     validationIssues := [];
     isEditing := false;
     editCourses := [];
     approvalStatus := None;
     saveMessage := None;
     sessionStorage := ∅ |}.


(** * Proofs *)

(** ** Sums and the issue list *)

Lemma fold_left_add_acc {A : Type} (f : A -> Z) (l : list A) (a : Z) :
  fold_left (fun acc c => acc + f c) l a = a + reduce_sum f l.
Proof.
  unfold reduce_sum. revert a.
  induction l as [|x l IH]; intros a; simpl; [lia|].
  rewrite (IH (a + f x)), (IH (0 + f x)). lia.
Qed.

Lemma reduce_sum_nil {A : Type} (f : A -> Z) : reduce_sum f [] = 0.
Proof. reflexivity. Qed.

Lemma reduce_sum_cons {A : Type} (f : A -> Z) (x : A) (l : list A) :
  reduce_sum f (x :: l) = f x + reduce_sum f l.
Proof. unfold reduce_sum at 1. simpl. now rewrite fold_left_add_acc. Qed.

Lemma reduce_sum_app {A : Type} (f : A -> Z) (l1 l2 : list A) :
  reduce_sum f (l1 ++ l2) = reduce_sum f l1 + reduce_sum f l2.
Proof.
  induction l1 as [|x l1 IH]; simpl; [reflexivity|].
  rewrite !reduce_sum_cons, IH. lia.
Qed.

Lemma fold_push {A B : Type} (P : A -> bool) (g : A -> B) (l : list A) (acc : list B) :
  fold_left (fun acc c => if P c then acc ++ [g c] else acc) l acc
  = acc ++ map g (List.filter P l).
Proof.
  revert acc. induction l as [|x l IH]; intros acc; simpl.
  - now rewrite app_nil_r.
  - rewrite IH. destruct (P x); simpl; [|reflexivity].
    now rewrite <- app_assoc.
Qed.

Lemma fold_push_ext {A B : Type} (F : list B -> A -> list B) (P : A -> bool) (g : A -> B)
    (l : list A) (acc : list B) :
  (forall acc c, F acc c = if P c then acc ++ [g c] else acc) ->
  fold_left F l acc = acc ++ map g (List.filter P l).
Proof.
  intros HF. rewrite <- fold_push. revert acc.
  induction l as [|x l IH]; intros acc; simpl; [reflexivity|].
  now rewrite HF, IH.
Qed.

Lemma push_opt {A : Type} (b : bool) (l : list A) (x : A) :
  (if b then l ++ [x] else l) = l ++ (if b then [x] else []).
Proof. destruct b; [reflexivity | now rewrite app_nil_r]. Qed.

Lemma validate_shape (fmt : Z -> string) (s : CompanySettlement.t) :
  exists (company : Check -> ValidationIssue) (g : CourseSummary.t -> ValidationIssue),
    validateSettlement fmt s =
      flat_map (fun chk => if check_fails chk s then [company chk] else []) all_checks
      ++ map g (List.filter course_fails (CompanySettlement.courses s))
    /\ (forall chk, issue_describes (company chk) (check_field chk)
                     (check_expected chk s) (check_actual chk s))
    /\ (forall c, issue_describes (g c) (course_field c)
                   (CourseSummary.revenue c - CourseSummary.ad_cost c)
                   (CourseSummary.contribution c)).
Proof.
  assert (exists (i1 i2 i3 i4 i5 : ValidationIssue) (g : CourseSummary.t -> ValidationIssue),
    validateSettlement fmt s =
      (if check_fails RevenueSum s then [i1] else []) ++
      (if check_fails AdCostSum s then [i2] else []) ++
      (if check_fails ContributionSum s then [i3] else []) ++
      (if check_fails ContributionFormula s then [i4] else []) ++
      (if check_fails SettlementAmount s then [i5] else []) ++
      map g (List.filter course_fails (CompanySettlement.courses s))
    /\ (issue_describes i1 (check_field RevenueSum)
          (check_expected RevenueSum s) (check_actual RevenueSum s)
       /\ issue_describes i2 (check_field AdCostSum)
          (check_expected AdCostSum s) (check_actual AdCostSum s)
       /\ issue_describes i3 (check_field ContributionSum)
          (check_expected ContributionSum s) (check_actual ContributionSum s)
       /\ issue_describes i4 (check_field ContributionFormula)
          (check_expected ContributionFormula s) (check_actual ContributionFormula s)
       /\ issue_describes i5 (check_field SettlementAmount)
          (check_expected SettlementAmount s) (check_actual SettlementAmount s))
    /\ forall c, issue_describes (g c) (course_field c)
         (CourseSummary.revenue c - CourseSummary.ad_cost c) (CourseSummary.contribution c))
    as (i1 & i2 & i3 & i4 & i5 & g & Heq & (H1 & H2 & H3 & H4 & H5) & Hg).
  { do 6 eexists. split.
    - unfold validateSettlement. cbv zeta.
      erewrite (fold_push_ext _ course_fails);
        [| intros; unfold course_fails, course_discrepancy;
           rewrite <- Z.gtb_ltb; reflexivity].
      rewrite !push_opt. rewrite !Z.gtb_ltb. simpl app at 1.
      rewrite <- !app_assoc.
      unfold check_fails, check_discrepancy.
      reflexivity.
    - unfold issue_describes; simpl. repeat split. }
  exists (fun chk =>
            match chk with
            | RevenueSum => i1 | AdCostSum => i2 | ContributionSum => i3
            | ContributionFormula => i4 | SettlementAmount => i5
            end), g.
  split; [| split; [intros []; assumption | exact Hg]].
  rewrite Heq. simpl. rewrite <- !app_assoc. reflexivity.
Qed.

Lemma check_field_inj (a b : Check) : check_field a = check_field b -> a = b.
Proof. destruct a, b; simpl; intros H; try reflexivity; discriminate H. Qed.

Lemma course_field_not_check (c : CourseSummary.t) (chk : Check) :
  course_field c <> check_field chk.
Proof. destruct chk; unfold course_field; simpl; discriminate. Qed.

Lemma check_fails_spec (chk : Check) (s : CompanySettlement.t) :
  check_fails chk s = true <-> 2 < Z.abs (check_actual chk s - check_expected chk s).
Proof.
  unfold check_fails, threshold. rewrite Z.ltb_lt.
  destruct chk; simpl; lia.
Qed.

Lemma course_fails_spec (c : CourseSummary.t) :
  course_fails c = true
  <-> 2 < Z.abs (CourseSummary.contribution c
                 - (CourseSummary.revenue c - CourseSummary.ad_cost c)).
Proof.
  unfold course_fails, course_discrepancy, threshold. rewrite Z.ltb_lt. lia.
Qed.

(** Every issue of the list comes from a failing check or a failing course. *)
Lemma In_validate (fmt : Z -> string) (s : CompanySettlement.t) (i : ValidationIssue) :
  In i (validateSettlement fmt s) ->
  (exists chk, check_fails chk s = true
               /\ issue_describes i (check_field chk)
                    (check_expected chk s) (check_actual chk s))
  \/ (exists c, In c (CompanySettlement.courses s) /\ course_fails c = true
                /\ issue_describes i (course_field c)
                     (CourseSummary.revenue c - CourseSummary.ad_cost c)
                     (CourseSummary.contribution c)).
Proof.
  destruct (validate_shape fmt s) as (company & g & Heq & Hc & Hg).
  rewrite Heq, in_app_iff, in_flat_map, in_map_iff.
  intros [(chk & _ & Hin) | (c & <- & Hin)].
  - left. exists chk. destruct (check_fails chk s) eqn:E; simpl in Hin; [|tauto].
    destruct Hin as [<- | []]. auto.
  - right. exists c. apply filter_In in Hin. destruct Hin. auto.
Qed.

Lemma check_issue_in (fmt : Z -> string) (s : CompanySettlement.t) (chk : Check) :
  check_fails chk s = true ->
  exists i, In i (validateSettlement fmt s)
            /\ issue_describes i (check_field chk) (check_expected chk s) (check_actual chk s).
Proof.
  intros Hf. destruct (validate_shape fmt s) as (company & g & Heq & Hc & Hg).
  exists (company chk). split; [| apply Hc].
  rewrite Heq, in_app_iff, in_flat_map. left. exists chk. split.
  - destruct chk; simpl; tauto.
  - rewrite Hf. now left.
Qed.

Lemma course_issue_in (fmt : Z -> string) (s : CompanySettlement.t) (c : CourseSummary.t) :
  In c (CompanySettlement.courses s) -> course_fails c = true ->
  exists i, In i (validateSettlement fmt s)
            /\ issue_describes i (course_field c)
                 (CourseSummary.revenue c - CourseSummary.ad_cost c)
                 (CourseSummary.contribution c).
Proof.
  intros Hin Hf. destruct (validate_shape fmt s) as (company & g & Heq & Hc & Hg).
  exists (g c). split; [| apply Hg].
  rewrite Heq, in_app_iff, in_map_iff. right. exists c. split; [reflexivity|].
  apply filter_In. auto.
Qed.

Lemma has_issue_check (fmt : Z -> string) (s : CompanySettlement.t) (chk : Check) :
  has_issue (check_field chk) (validateSettlement fmt s) <-> check_fails chk s = true.
Proof.
  split.
  - intros (i & Hin & Hf). apply In_validate in Hin.
    destruct Hin as [(chk' & Hfail & Hd) | (c & _ & _ & Hd)].
    + destruct Hd as (Hd & _). rewrite Hf in Hd.
      apply check_field_inj in Hd. now subst.
    + destruct Hd as (Hd & _). rewrite Hf in Hd. symmetry in Hd.
      now apply course_field_not_check in Hd.
  - intros Hfail. destruct (check_issue_in fmt s chk Hfail) as (i & Hin & Hd & _).
    now exists i.
Qed.

Lemma validate_length (fmt : Z -> string) (s : CompanySettlement.t) :
  length (validateSettlement fmt s)
  = (length (List.filter (fun chk => check_fails chk s) all_checks)
     + length (List.filter course_fails (CompanySettlement.courses s)))%nat.
Proof.
  destruct (validate_shape fmt s) as (company & g & Heq & _).
  rewrite Heq, length_app, length_map. f_equal.
  unfold all_checks. simpl.
  repeat match goal with |- context [check_fails ?c s] => destruct (check_fails c s) end;
    reflexivity.
Qed.

(** ** Rounding and products *)

Lemma Math_round_comp (x y : Q) : (x == y)%Q -> Math_round x = Math_round y.
Proof. intros H. unfold Math_round. now rewrite H. Qed.

Lemma Math_round_mono (x y : Q) : (x <= y)%Q -> Math_round x <= Math_round y.
Proof.
  intros H. unfold Math_round. apply Qfloor_resp_le.
  apply Qplus_le_compat; [exact H | apply Qle_refl].
Qed.

Lemma Math_round_bounds (x : Q) :
  (inject_Z (Math_round x) <= x + (1 # 2))%Q
  /\ (x + (1 # 2) < inject_Z (Math_round x) + 1)%Q.
Proof.
  unfold Math_round. split; [apply Qfloor_le|].
  generalize (Qlt_floor (x + (1 # 2))). now rewrite inject_Z_plus.
Qed.

Lemma Math_round_unique (x : Q) (n : Z) :
  (inject_Z n <= x + (1 # 2))%Q -> (x + (1 # 2) < inject_Z n + 1)%Q -> n = Math_round x.
Proof.
  intros Hlo Hhi. destruct (Math_round_bounds x) as [Flo Fhi].
  assert (H1 : (inject_Z n < inject_Z (Math_round x + 1))%Q).
  { rewrite inject_Z_plus. eapply Qle_lt_trans; eassumption. }
  assert (H2 : (inject_Z (Math_round x) < inject_Z (n + 1))%Q).
  { rewrite inject_Z_plus. eapply Qle_lt_trans; eassumption. }
  rewrite <- Zlt_Qlt in H1, H2. lia.
Qed.

Lemma times_mono (a b : Z) (r : Q) : (0 <= r)%Q -> a <= b -> (times a r <= times b r)%Q.
Proof.
  intros Hr Hab. unfold times. apply Qmult_le_compat_r; [|exact Hr].
  now rewrite <- Zle_Qle.
Qed.

Lemma Math_round_times_zero (a : Z) (r : Q) : (r == 0)%Q -> Math_round (times a r) = 0.
Proof.
  intros Hr. rewrite (Math_round_comp _ 0); [reflexivity|].
  unfold times. rewrite Hr. ring.
Qed.

(** ** Sums over course lists *)

Lemma reduce_sum_sub {A : Type} (f g : A -> Z) (l : list A) :
  reduce_sum (fun c => f c - g c) l = reduce_sum f l - reduce_sum g l.
Proof.
  induction l as [|x l IH]; [reflexivity|].
  rewrite !reduce_sum_cons, IH. lia.
Qed.

Lemma reduce_sum_ext_in {A : Type} (f g : A -> Z) (l : list A) :
  Forall (fun c => f c = g c) l -> reduce_sum f l = reduce_sum g l.
Proof.
  induction 1 as [|x l Hx _ IH]; [reflexivity|].
  rewrite !reduce_sum_cons. lia.
Qed.

Lemma reduce_sum_map {A B : Type} (f : B -> Z) (h : A -> B) (l : list A) :
  reduce_sum f (map h l) = reduce_sum (fun c => f (h c)) l.
Proof.
  induction l as [|x l IH]; [reflexivity|].
  simpl. rewrite !reduce_sum_cons, IH. reflexivity.
Qed.

Lemma reduce_sum_values {A : Type} (f : A -> Z) (l : list A) :
  reduce_sum f l = reduce_sum (fun z => z) (map f l).
Proof.
  induction l as [|x l IH]; [reflexivity|].
  simpl. rewrite !reduce_sum_cons, IH. reflexivity.
Qed.

Lemma reduce_sum_Permutation {A : Type} (f : A -> Z) (l1 l2 : list A) :
  l1 ≡ₚ l2 -> reduce_sum f l1 = reduce_sum f l2.
Proof.
  induction 1 as [| x l1 l2 _ IH | x y l | l1 l2 l3 _ IH1 _ IH2].
  - reflexivity.
  - rewrite !reduce_sum_cons. lia.
  - rewrite !reduce_sum_cons. lia.
  - lia.
Qed.

(** Replacing the course at an index changes a sum by the difference of the
    two summands. *)
Lemma reduce_sum_insert {A : Type} (f : A -> Z) (l : list A) (i : nat) (x y : A) :
  l !! i = Some x -> reduce_sum f (<[i := y]> l) = reduce_sum f l - f x + f y.
Proof.
  revert i. induction l as [|z l IH]; intros [|i] H; simpl in *; try discriminate.
  - injection H as ->. rewrite !reduce_sum_cons. lia.
  - rewrite !reduce_sum_cons, (IH i H). lia.
Qed.

(** ** The edit handlers *)

Lemma edit_course_consistent (fld : EditField) (value : Z) (c : CourseSummary.t) :
  course_consistent (edit_course fld value c).
Proof. destruct fld; reflexivity. Qed.

Lemma edit_course_revenue (value : Z) (c : CourseSummary.t) :
  edit_course Revenue value c =
  {| CourseSummary.course_id := CourseSummary.course_id c;
     CourseSummary.course_name := CourseSummary.course_name c;
     CourseSummary.revenue := value;
     CourseSummary.ad_cost := CourseSummary.ad_cost c;
     CourseSummary.contribution := value - CourseSummary.ad_cost c;
     CourseSummary.revenue_share := CourseSummary.revenue_share c;
     CourseSummary.section := CourseSummary.section c;
     CourseSummary.rs_ratio := CourseSummary.rs_ratio c;
     CourseSummary.monthly_revenue := CourseSummary.monthly_revenue c |}.
Proof. reflexivity. Qed.

(** The updater is defined exactly on the indices of the buffer. *)
Lemma editCourses_updater_defined (idx : nat) (fld : EditField) (value : Z)
    (prev : list CourseSummary.t) :
  (idx < length prev)%nat <-> is_Some (editCourses_updater idx fld value prev).
Proof.
  unfold editCourses_updater. rewrite <- lookup_lt_is_Some.
  destruct (prev !! idx); split; intros [x Hx]; try discriminate; eauto.
Qed.

(** An edit keeps the buffer consistent when it was, and makes the edited
    course consistent in any case. *)
Lemma editCourses_updater_consistent (idx : nat) (fld : EditField) (value : Z)
    (prev updated : list CourseSummary.t) :
  editCourses_updater idx fld value prev = Some updated ->
  (exists c, updated !! idx = Some c /\ course_consistent c)
  /\ (Forall course_consistent prev -> Forall course_consistent updated).
Proof.
  unfold editCourses_updater. destruct (prev !! idx) as [c|] eqn:E; [|discriminate].
  intros [= <-]. split.
  - exists (edit_course fld value c). split; [|apply edit_course_consistent].
    apply list_lookup_insert_eq. now apply lookup_lt_Some in E.
  - intros H. apply Forall_insert; [exact H | apply edit_course_consistent].
Qed.

(** [handleStartEdit] fills the buffer with the courses on record and
    [handleEditCourse] touches nothing but the buffer. *)
Lemma handleStartEdit_buffer (st : PageState) (s : CompanySettlement.t) :
  settlement st = Some s -> isApproved st = false ->
  editCourses (handleStartEdit st) = CompanySettlement.courses s
  /\ isEditing (handleStartEdit st) = true.
Proof.
  intros Hs Ha. unfold handleStartEdit. rewrite Hs, Ha. simpl.
  split; [apply map_id | reflexivity].
Qed.

Lemma handleEditCourse_frame (idx : nat) (fld : EditField) (value : Z) (st st' : PageState) :
  handleEditCourse idx fld value st = Some st' ->
  editCourses_updater idx fld value (editCourses st) = Some (editCourses st')
  /\ settlement st' = settlement st /\ fullData st' = fullData st
  /\ validationIssues st' = validationIssues st
  /\ sessionStorage st' = sessionStorage st.
Proof.
  unfold handleEditCourse.
  destruct (editCourses_updater idx fld value (editCourses st)); [|discriminate].
  intros [= <-]. simpl. repeat split.
Qed.

Lemma updatedSettlement_idem (s : CompanySettlement.t) (edits : list CourseSummary.t) :
  updatedSettlement (updatedSettlement s edits) edits = updatedSettlement s edits.
Proof. reflexivity. Qed.

Lemma updatedFullData_idem (id : string) (fd : ParseResponse.t) (u : CompanySettlement.t) :
  updatedFullData id (updatedFullData id fd u) u = updatedFullData id fd u.
Proof. unfold updatedFullData. simpl. now rewrite insert_insert_eq. Qed.

(** The sum of a field over the companies after one entry is replaced. *)
Lemma Object_values_insert {A : Type} (f : A -> Z) (obj : gmap string A) (k : string) (v : A) :
  reduce_sum f (Object_values (<[k := v]> obj))
  = f v + reduce_sum f (Object_values (delete k obj)).
Proof.
  unfold Object_values. rewrite <- insert_delete_eq.
  rewrite (reduce_sum_Permutation f _ ((k, v) :: map_to_list (delete k obj)).*2).
  - simpl. now rewrite reduce_sum_cons.
  - apply fmap_Permutation, map_to_list_insert, lookup_delete_eq.
Qed.

Lemma Object_values_lookup {A : Type} (f : A -> Z) (obj : gmap string A) (k : string) (v : A) :
  obj !! k = Some v ->
  reduce_sum f (Object_values obj) = f v + reduce_sum f (Object_values (delete k obj)).
Proof.
  intros H. rewrite <- (insert_id obj k v H) at 1. apply Object_values_insert.
Qed.

(** An issue carrying the field string of a check is the issue of that
    check, and the check fails. *)
Lemma issue_of_check (fmt : Z -> string) (s : CompanySettlement.t) (chk : Check)
    (i : ValidationIssue) :
  In i (validateSettlement fmt s) -> field i = check_field chk ->
  check_fails chk s = true
  /\ issue_describes i (check_field chk) (check_expected chk s) (check_actual chk s).
Proof.
  intros Hin Hfield. apply In_validate in Hin.
  destruct Hin as [(chk' & Hfail & Hd) | (c & _ & _ & Hd)].
  - assert (chk' = chk) as ->; [|auto].
    destruct Hd as (Hf & _). rewrite Hfield in Hf. now apply check_field_inj.
  - destruct Hd as (Hf & _). rewrite Hfield in Hf. symmetry in Hf.
    now apply course_field_not_check in Hf.
Qed.

(** * The settlement amount *)

(** C1 (as amended): the settlement amount recomputed after an edit is
    [Math.round] of the total contribution times the union payout ratio of the
    settlement record; the validator's settlement check expects the same
    product of the record it is given and fires exactly when the stored amount
    is more than 2 away from it; the recomputed record always passes that
    check; and with a union payout ratio of 0 the amount is 0 while the
    contribution total is still the sum over the courses.  No revenue share
    ratio enters either computation. *)
Theorem settlement_amount_union_payout (fmt : Z -> string) (s : CompanySettlement.t)
    (edits : list CourseSummary.t) :
  let u := updatedSettlement s edits in
  CompanySettlement.settlement_amount u
    = Math_round (times (CompanySettlement.contribution u)
                        (CompanySettlement.union_payout_ratio s))
  /\ CompanySettlement.contribution u = reduce_sum CourseSummary.contribution edits
  /\ CompanySettlement.union_payout_ratio u = CompanySettlement.union_payout_ratio s
  /\ (forall i, In i (validateSettlement fmt s) -> field i = "수익쉐어 금액" ->
        expected i = Math_round (times (CompanySettlement.contribution s)
                                       (CompanySettlement.union_payout_ratio s))
        /\ actual i = CompanySettlement.settlement_amount s)
  /\ (has_issue "수익쉐어 금액" (validateSettlement fmt s) <->
        2 < Z.abs (CompanySettlement.settlement_amount s
                   - Math_round (times (CompanySettlement.contribution s)
                                       (CompanySettlement.union_payout_ratio s))))
  /\ ~ has_issue "수익쉐어 금액" (validateSettlement fmt u)
  /\ ((CompanySettlement.union_payout_ratio s == 0)%Q ->
        CompanySettlement.settlement_amount u = 0).
Proof.
  cbv zeta.
  split; [reflexivity|]. split; [reflexivity|]. split; [reflexivity|].
  split; [|split; [|split]].
  - intros i Hin Hfield.
    destruct (issue_of_check fmt s SettlementAmount i Hin Hfield) as (_ & _ & He & Ha & _).
    auto.
  - rewrite (has_issue_check fmt s SettlementAmount). apply check_fails_spec.
  - rewrite (has_issue_check fmt _ SettlementAmount), check_fails_spec. simpl. lia.
  - intros H. simpl. now apply Math_round_times_zero.
Qed.

(** The chain of the specification is not what the code computes: for the
    union partner the chain 0.75 x 0.5 gives 375, the recomputation gives 500,
    and the validator flags a record carrying 375 against an expectation of
    500. *)
Lemma ratio_chain_not_applied :
  spec_settlement_amount
    (CompanySettlement.contribution (updatedSettlement (union_partner 375) [union_course]))
    (CompanyInfo.revenue_share_ratio union_info)
    (CompanySettlement.union_payout_ratio (union_partner 375)) = 375
  /\ CompanySettlement.settlement_amount (updatedSettlement (union_partner 375) [union_course])
     = 500
  /\ (exists i, In i (validateSettlement won (union_partner 375))
                /\ field i = "수익쉐어 금액" /\ expected i = 500 /\ actual i = 375
                /\ diff i = -125).
Proof.
  split; [reflexivity|]. split; [reflexivity|].
  eexists. split; [left; reflexivity|]. repeat split.
Qed.

(** The sum of a field over a mapped list, in any arithmetic. *)
Lemma Doubles_reduce_sum_map {A : Doubles.Arithmetic} {B C : Type}
    (f : C -> Doubles.number) (h : B -> C) (l : list B) :
  Doubles.reduce_sum f (map h l) = Doubles.reduce_sum (fun c => f (h c)) l.
Proof.
  unfold Doubles.reduce_sum. generalize Doubles.zero.
  induction l as [|x l IH]; intros acc; simpl; [reflexivity | apply IH].
Qed.

Lemma Doubles_reduce_sum_values {A : Doubles.Arithmetic} {B : Type}
    (f : B -> Doubles.number) (l : list B) :
  Doubles.reduce_sum f l = Doubles.reduce_sum (fun x => x) (map f l).
Proof. now rewrite Doubles_reduce_sum_map. Qed.

(** In the arithmetic of the rationals a sum of whole amounts is the sum of
    the first part. *)
Lemma exact_reduce_sum {B : Type} (f : B -> Z) (l : list B) :
  (Doubles.reduce_sum (A := Doubles.exact) (fun c => inject_Z (f c)) l
   == inject_Z (reduce_sum f l))%Q.
Proof.
  unfold Doubles.reduce_sum. simpl.
  assert (H : forall acc : Q,
    (fold_left (fun (acc : Q) (c : B) => acc + inject_Z (f c)) l acc
     == acc + inject_Z (reduce_sum f l))%Q).
  { induction l as [|x l IH]; intros acc; simpl.
    - rewrite reduce_sum_nil. ring.
    - rewrite IH, reduce_sum_cons, inject_Z_plus. ring. }
  rewrite H. ring.
Qed.

(** The first part is the recomputation in the arithmetic of the rationals,
    on whole amounts: the totals and the settlement amount agree. *)
Lemma exact_recomputation (s : CompanySettlement.t) (edits : list CourseSummary.t) :
  let u := Doubles.updatedSettlement (A := Doubles.exact)
             (of_settlement s) (map of_course edits) in
  let u0 := updatedSettlement s edits in
  (Doubles.CompanySettlement.revenue u == inject_Z (CompanySettlement.revenue u0))%Q
  /\ (Doubles.CompanySettlement.ad_cost u == inject_Z (CompanySettlement.ad_cost u0))%Q
  /\ (Doubles.CompanySettlement.contribution u
      == inject_Z (CompanySettlement.contribution u0))%Q
  /\ Doubles.CompanySettlement.settlement_amount u
     = inject_Z (CompanySettlement.settlement_amount u0).
Proof.
  cbv zeta. unfold Doubles.updatedSettlement, updatedSettlement. simpl.
  rewrite !Doubles_reduce_sum_map. simpl.
  split; [apply exact_reduce_sum|]. split; [apply exact_reduce_sum|].
  split; [apply exact_reduce_sum|].
  unfold Doubles.Math_round, Doubles.nearest_integer. simpl. f_equal.
  apply Math_round_comp. unfold times. now rewrite exact_reduce_sum.
Qed.

(** C2 (as amended): the settlement amount is [Math.round] of one number [p],
    the product, as the arithmetic of the script computes it, of the sum of
    the contributions of the buffer and the payout ratio.  It is the one
    integer [n] with [n <= p + 1/2 < n + 1]: the integer nearest to [p], a
    tie going up.  Nothing is rounded to an integer before that: the amount
    is determined by the contributions of the courses alone, whatever their
    rounded shares.  The validator expects of the recomputed record the
    amount it carries.  This holds in every arithmetic, binary64 included,
    where [p] itself is the double nearest to the exact product. *)
Theorem settlement_amount_rounded_once (A : Doubles.Arithmetic)
    (s : Doubles.CompanySettlement.t) (edits : list Doubles.CourseSummary.t) :
  let u := Doubles.updatedSettlement s edits in
  let p := Doubles.mul (Doubles.reduce_sum Doubles.CourseSummary.contribution edits)
             (Doubles.CompanySettlement.union_payout_ratio s) in
  let n := Doubles.nearest_integer p in
  Doubles.CompanySettlement.settlement_amount u = Doubles.of_Q (inject_Z n)
  /\ (inject_Z n <= Doubles.value p + (1 # 2))%Q
  /\ (Doubles.value p + (1 # 2) < inject_Z n + 1)%Q
  /\ (forall m : Z, (inject_Z m <= Doubles.value p + (1 # 2))%Q ->
        (Doubles.value p + (1 # 2) < inject_Z m + 1)%Q -> m = n)
  /\ (forall edits' : list Doubles.CourseSummary.t,
        map Doubles.CourseSummary.contribution edits'
        = map Doubles.CourseSummary.contribution edits ->
        Doubles.CompanySettlement.settlement_amount (Doubles.updatedSettlement s edits')
        = Doubles.CompanySettlement.settlement_amount u)
  /\ Doubles.expectedSettlement u = Doubles.CompanySettlement.settlement_amount u.
Proof.
  cbv zeta. unfold Doubles.nearest_integer.
  split; [reflexivity|].
  split; [apply Math_round_bounds|].
  split; [apply Math_round_bounds|].
  split; [intros m; apply Math_round_unique|].
  split; [|reflexivity].
  intros edits' Hmap. unfold Doubles.updatedSettlement. simpl.
  rewrite (Doubles_reduce_sum_values _ edits'), (Doubles_reduce_sum_values _ edits).
  now rewrite Hmap.
Qed.

(** Half a won is rounded up where round-half-to-even rounds down: a
    contribution of 5 at a ratio of 0.5 settles at 3, not 2; the product 2.5
    is a double, and the script in binary64 settles at 3 as well. *)
Lemma half_won_rounds_up :
  CompanySettlement.settlement_amount (updatedSettlement half_partner [half_course]) = 3
  /\ round_half_even
       (times (reduce_sum CourseSummary.contribution [half_course])
              (CompanySettlement.union_payout_ratio half_partner)) = 2
  /\ binary64_amount (1 # 2) [(5%Q, 0%Q)] = 3%Q.
Proof. split; [reflexivity|]. split; [reflexivity|]. vm_compute. reflexivity. Qed.

(** In binary64 the product is rounded to a double before [Math.round] sees
    it: 45 x 0.7 is 31.499999999999996 there and settles at 31, where the
    exact product 31.5 settles at 32; 15 x 0.7 is 10.5 there and settles at
    11, the exact product of 15 and the double nearest to 0.7 being below
    10.5. *)
Example binary64_rounds_the_product_first :
  binary64_amount (7 # 10) [(45%Q, 0%Q)] = 31%Q
  /\ Math_round (times 45 (7 # 10)) = 32
  /\ binary64_amount (35 # 100) [(90%Q, 0%Q)] = 31%Q
  /\ binary64_amount (7 # 10) [(15%Q, 0%Q)] = 11%Q
  /\ Math_round (times 15 (Doubles.float_value (Doubles.float_of_Q (7 # 10)))) = 10.
Proof. repeat split; vm_compute; reflexivity. Qed.

(** The per-course shares are rounded one by one for the [revenue_share]
    column only: two courses of contribution 1 at a ratio of 0.5 carry a share
    of 1 each, their sum 2 is stored as [revenue_share], and the settlement
    amount is 1. *)
Example per_course_shares_rounded_apart :
  let u := updatedSettlement half_partner
             [sample_course "a" 1 0 1; sample_course "b" 1 0 1] in
  CompanySettlement.revenue_share u = 2 /\ CompanySettlement.settlement_amount u = 1.
Proof. split; reflexivity. Qed.

(** * The checks of the validator *)

Lemma filter_none {A : Type} (P : A -> bool) (l : list A) :
  Forall (fun c => P c = false) l -> List.filter P l = [].
Proof.
  induction 1 as [|x l Hx _ IH]; [reflexivity|]. simpl. now rewrite Hx.
Qed.

(** When every other check passes, a contribution 500 above revenue minus
    cost yields the issue of the contribution formula check alone.  The other
    checks can pass only through the drift their tolerance admits, course by
    course: [drift_partner] has 250 courses off by 2. *)
Remark formula_gap_single_issue (fmt : Z -> string) (s : CompanySettlement.t) :
  CompanySettlement.contribution s
    - (CompanySettlement.revenue s - CompanySettlement.ad_cost s) = 500 ->
  Z.abs (reduce_sum CourseSummary.revenue (CompanySettlement.courses s)
         - CompanySettlement.revenue s) <= 2 ->
  Z.abs (reduce_sum CourseSummary.ad_cost (CompanySettlement.courses s)
         - CompanySettlement.ad_cost s) <= 2 ->
  Z.abs (reduce_sum CourseSummary.contribution (CompanySettlement.courses s)
         - CompanySettlement.contribution s) <= 2 ->
  Forall (fun c => Z.abs (CourseSummary.contribution c
                          - (CourseSummary.revenue c - CourseSummary.ad_cost c)) <= 2)
         (CompanySettlement.courses s) ->
  Z.abs (CompanySettlement.settlement_amount s
         - Math_round (times (CompanySettlement.contribution s)
                             (CompanySettlement.union_payout_ratio s))) <= 2 ->
  exists i, validateSettlement fmt s = [i]
            /\ field i = "공헌이익 공식"
            /\ expected i = CompanySettlement.revenue s - CompanySettlement.ad_cost s
            /\ actual i = CompanySettlement.contribution s
            /\ diff i = 500.
Proof.
  intros Hgap Hrev Hcost Hcontr Hcourses Hamount.
  destruct (validate_shape fmt s) as (company & g & Heq & Hc & _).
  exists (company ContributionFormula).
  destruct (Hc ContributionFormula) as (Hf & He & Ha & Hd). simpl in He, Ha.
  split; [| repeat split; try assumption; rewrite Hd; exact Hgap].
  rewrite Heq, filter_none.
  - simpl.
    assert (Hno : forall chk, chk <> ContributionFormula -> check_fails chk s = false).
    { intros chk Hne. destruct (check_fails chk s) eqn:E; [|reflexivity].
      apply check_fails_spec in E. destruct chk; simpl in E; try lia. congruence. }
    rewrite (Hno RevenueSum), (Hno AdCostSum), (Hno ContributionSum),
      (Hno SettlementAmount) by discriminate.
    assert (check_fails ContributionFormula s = true) as ->.
    { apply check_fails_spec. simpl. lia. }
    reflexivity.
  - eapply List.Forall_impl; [|exact Hcourses]. intros c Hle. simpl in Hle.
    destruct (course_fails c) eqn:E; [|reflexivity].
    apply course_fails_spec in E. lia.
Qed.

Example drift_partner_single_issue :
  exists i, validateSettlement won drift_partner = [i]
            /\ field i = "공헌이익 공식"
            /\ expected i = CompanySettlement.revenue drift_partner
                            - CompanySettlement.ad_cost drift_partner
            /\ actual i = CompanySettlement.contribution drift_partner
            /\ diff i = 500.
Proof.
  apply (formula_gap_single_issue won drift_partner).
  - reflexivity.
  - vm_compute. discriminate.
  - vm_compute. discriminate.
  - vm_compute. discriminate.
  - apply List.Forall_forall. intros c Hc.
    apply (repeat_spec 250 (sample_course "course" 0 0 2)) in Hc. subst c.
    vm_compute. discriminate.
  - vm_compute. discriminate.
Qed.





(** With every course and every course sum exactly consistent the
    contribution formula cannot be off at all: a gap needs the drift the
    tolerance admits. *)
Remark exact_consistency_leaves_no_gap (s : CompanySettlement.t) :
  reduce_sum CourseSummary.revenue (CompanySettlement.courses s) = CompanySettlement.revenue s ->
  reduce_sum CourseSummary.ad_cost (CompanySettlement.courses s) = CompanySettlement.ad_cost s ->
  reduce_sum CourseSummary.contribution (CompanySettlement.courses s)
    = CompanySettlement.contribution s ->
  Forall course_consistent (CompanySettlement.courses s) ->
  CompanySettlement.contribution s = CompanySettlement.revenue s - CompanySettlement.ad_cost s.
Proof.
  intros <- <- <- H. rewrite <- reduce_sum_sub. now apply reduce_sum_ext_in.
Qed.

(** C4: the checks are evaluated independently of one another.  For each of
    the five company-level checks the list holds an issue with the field of
    that check if and only if the discrepancy of that check exceeds the
    tolerance; for each course the list holds the issue of that course if and
    only if the discrepancy of the course does; and the list holds one issue
    per failing check and per failing course, nothing else. *)
Theorem checks_independent (fmt : Z -> string) (s : CompanySettlement.t) :
  (forall chk : Check,
     has_issue (check_field chk) (validateSettlement fmt s)
     <-> threshold < Z.abs (check_discrepancy chk s))
  /\ (forall c : CourseSummary.t, In c (CompanySettlement.courses s) ->
        (exists i, In i (validateSettlement fmt s)
                   /\ issue_describes i (course_field c)
                        (CourseSummary.revenue c - CourseSummary.ad_cost c)
                        (CourseSummary.contribution c))
        <-> threshold < Z.abs (course_discrepancy c))
  /\ length (validateSettlement fmt s)
     = (length (List.filter (fun chk => check_fails chk s) all_checks)
        + length (List.filter course_fails (CompanySettlement.courses s)))%nat.
Proof.
  split; [|split].
  - intros chk. rewrite has_issue_check. unfold check_fails. apply Z.ltb_lt.
  - intros c Hc. split.
    + intros (i & Hin & Hf & He & Ha & _). apply In_validate in Hin.
      destruct Hin as [(chk & _ & Hf' & _) | (c' & _ & Hfail & _ & He' & Ha' & _)].
      * rewrite Hf in Hf'. now apply course_field_not_check in Hf'.
      * apply course_fails_spec in Hfail. unfold threshold, course_discrepancy. lia.
    + intros H. apply course_issue_in; [exact Hc|].
      unfold course_fails. now apply Z.ltb_lt.
  - apply validate_length.
Qed.

(** A settlement failing all five company-level checks and the check of its
    one course gets six issues, in the order of the checks. *)
Example broken_partner_issues :
  map field (validateSettlement won broken_partner)
  = ["매출액"; "마케팅비"; "공헌이익"; "공헌이익 공식"; "수익쉐어 금액"; "[course] 공헌이익"].
Proof. reflexivity. Qed.

(** C5: the three sum checks use a tolerance of 2.  An issue for revenue is
    produced if and only if the sum of the course revenues is more than 2 away
    from the company revenue, and likewise for the marketing cost and the
    contribution; a difference of exactly 2 produces no issue. *)
Theorem sum_checks_tolerance_two (fmt : Z -> string) (s : CompanySettlement.t) :
  let issues := validateSettlement fmt s in
  let dRevenue := reduce_sum CourseSummary.revenue (CompanySettlement.courses s)
                  - CompanySettlement.revenue s in
  let dAdCost := reduce_sum CourseSummary.ad_cost (CompanySettlement.courses s)
                 - CompanySettlement.ad_cost s in
  let dContribution := reduce_sum CourseSummary.contribution (CompanySettlement.courses s)
                       - CompanySettlement.contribution s in
  (has_issue "매출액" issues <-> 2 < Z.abs dRevenue)
  /\ (has_issue "마케팅비" issues <-> 2 < Z.abs dAdCost)
  /\ (has_issue "공헌이익" issues <-> 2 < Z.abs dContribution)
  /\ (Z.abs dRevenue = 2 -> ~ has_issue "매출액" issues)
  /\ (Z.abs dAdCost = 2 -> ~ has_issue "마케팅비" issues)
  /\ (Z.abs dContribution = 2 -> ~ has_issue "공헌이익" issues).
Proof.
  cbv zeta.
  pose proof (has_issue_check fmt s RevenueSum) as HR.
  pose proof (has_issue_check fmt s AdCostSum) as HA.
  pose proof (has_issue_check fmt s ContributionSum) as HC.
  rewrite check_fails_spec in HR, HA, HC. simpl in HR, HA, HC.
  repeat split; try (apply HR || apply HA || apply HC);
    intros H2 Hissue; (apply HR in Hissue || apply HA in Hissue || apply HC in Hissue); lia.
Qed.

(** At a difference of exactly 2 the validator is silent, at 3 it reports. *)
Example tolerance_boundary :
  validateSettlement won (sample_settlement "p" 998 0 1000 500 (1 # 2) [union_course]) = []
  /\ map field
       (validateSettlement won (sample_settlement "p" 997 0 1000 500 (1 # 2) [union_course]))
     = ["매출액"; "공헌이익 공식"].
Proof. split; reflexivity. Qed.

(** * Recomputation from the edit buffer *)

Lemma contribution_sum_consistent (edits : list CourseSummary.t) :
  Forall course_consistent edits ->
  reduce_sum CourseSummary.contribution edits
  = reduce_sum CourseSummary.revenue edits - reduce_sum CourseSummary.ad_cost edits.
Proof.
  intros H. rewrite <- reduce_sum_sub. now apply reduce_sum_ext_in.
Qed.

Lemma editCourses_updater_length (idx : nat) (fld : EditField) (value : Z)
    (prev updated : list CourseSummary.t) :
  editCourses_updater idx fld value prev = Some updated -> length updated = length prev.
Proof.
  unfold editCourses_updater. destruct (prev !! idx); [|discriminate].
  intros [= <-]. apply length_insert.
Qed.

(** After a run of edits a course is consistent when it was edited in the
    run, or was consistent before it. *)
Lemma editCourses_run_consistent (calls : list (nat * EditField * Z)) :
  forall buffer updated : list CourseSummary.t,
    editCourses_run calls buffer = Some updated ->
    length updated = length buffer
    /\ forall (j : nat) (c : CourseSummary.t),
         updated !! j = Some c ->
         In j (map (fun call => call.1.1) calls)
         \/ (exists c0, buffer !! j = Some c0 /\ course_consistent c0) ->
         course_consistent c.
Proof.
  induction calls as [|[[idx fld] v] calls IH]; intros buffer updated; simpl.
  - intros [= <-]. split; [reflexivity|].
    intros j c Hj [[]|(c0 & H0 & Hc0)]. rewrite Hj in H0. now injection H0 as <-.
  - destruct (editCourses_updater idx fld v buffer) as [mid|] eqn:E; [|discriminate].
    intros Hrun. destruct (IH mid updated Hrun) as [Hlen Hcons].
    split; [rewrite Hlen; now apply (editCourses_updater_length idx fld v)|].
    unfold editCourses_updater in E.
    destruct (buffer !! idx) as [ci|] eqn:Ei; [|discriminate]. injection E as <-.
    intros j c Hj Hor. apply (Hcons j c Hj).
    destruct (decide (j = idx)) as [->|Hne].
    + right. exists (edit_course fld v ci). split; [|apply edit_course_consistent].
      apply list_lookup_insert_eq. now apply lookup_lt_Some in Ei.
    + destruct Hor as [[Heq|Hin]|(c0 & H0 & Hc0)].
      * simpl in Heq. congruence.
      * now left.
      * right. exists c0. split; [|exact Hc0]. now rewrite list_lookup_insert_ne.
Qed.

(** C6 (as amended): conservation of whole amounts holds up to what the
    buffer stores.  [handleApplyEdits] takes the total contribution as the sum
    of the contributions stored in the buffer, and [handleEditCourse] sets the
    contribution of the one course it edits.  So the recomputed total
    contribution exceeds the recomputed revenue minus the recomputed cost by
    the sum, over the courses, of stored contribution minus (revenue minus
    cost); an edit of a course removes the term of that course and no other;
    and the identity is exact once every course of the buffer has been edited,
    or was stored consistently. *)
Theorem conservation_after_recompute (s : CompanySettlement.t)
    (buffer : list CourseSummary.t) :
  let stored (c : CourseSummary.t) :=
    CourseSummary.contribution c - (CourseSummary.revenue c - CourseSummary.ad_cost c) in
  let gap (edits : list CourseSummary.t) :=
    CompanySettlement.contribution (updatedSettlement s edits)
    - (CompanySettlement.revenue (updatedSettlement s edits)
       - CompanySettlement.ad_cost (updatedSettlement s edits)) in
  CompanySettlement.revenue (updatedSettlement s buffer)
    = reduce_sum CourseSummary.revenue buffer
  /\ CompanySettlement.ad_cost (updatedSettlement s buffer)
     = reduce_sum CourseSummary.ad_cost buffer
  /\ gap buffer = reduce_sum stored buffer
  /\ (forall (idx : nat) (fld : EditField) (value : Z) (c : CourseSummary.t)
        (updated : list CourseSummary.t),
        buffer !! idx = Some c ->
        editCourses_updater idx fld value buffer = Some updated ->
        gap updated = gap buffer - stored c)
  /\ (forall (calls : list (nat * EditField * Z)) (updated : list CourseSummary.t),
        editCourses_run calls buffer = Some updated ->
        (forall idx, (idx < length buffer)%nat -> In idx (map (fun call => call.1.1) calls)) ->
        CompanySettlement.contribution (updatedSettlement s updated)
        = reduce_sum CourseSummary.revenue updated
          - reduce_sum CourseSummary.ad_cost updated)
  /\ (Forall course_consistent buffer ->
        CompanySettlement.contribution (updatedSettlement s buffer)
        = reduce_sum CourseSummary.revenue buffer
          - reduce_sum CourseSummary.ad_cost buffer).
Proof.
  cbv zeta. simpl.
  split; [reflexivity|]. split; [reflexivity|].
  split; [|split; [|split]].
  - rewrite (reduce_sum_sub CourseSummary.contribution
               (fun c => CourseSummary.revenue c - CourseSummary.ad_cost c)).
    now rewrite (reduce_sum_sub CourseSummary.revenue CourseSummary.ad_cost).
  - intros idx fld value c updated Hc. unfold editCourses_updater. rewrite Hc.
    intros [= <-]. rewrite !(reduce_sum_insert _ _ _ c) by exact Hc.
    destruct fld; simpl; lia.
  - intros calls updated Hrun Hall.
    destruct (editCourses_run_consistent calls buffer updated Hrun) as [Hlen Hcons].
    apply contribution_sum_consistent. apply Forall_lookup_2. intros j c Hj.
    apply (Hcons j c Hj). left. apply Hall. rewrite <- Hlen.
    now apply lookup_lt_Some in Hj.
  - apply contribution_sum_consistent.
Qed.

(** The partner of [stale_partner], the first course edited and the second
    not: the recomputed contribution keeps the 20 the second course stores in
    excess; once the second course is edited too, the identity is exact. *)
Example conservation_after_every_edit :
  CompanySettlement.contribution
    (updatedSettlement stale_partner
       [edit_course Revenue 1200 union_course; sample_course "course" 10 0 30])
  = (1200 + 10) - (0 + 0) + 20
  /\ (editCourses_run [(0%nat, Revenue, 1200); (1%nat, AdCost, 4)]
        (CompanySettlement.courses stale_partner)
      ≫= fun updated =>
           Some (CompanySettlement.contribution (updatedSettlement stale_partner updated)))
     = Some ((1200 + 10) - (0 + 4)).
Proof. split; reflexivity. Qed.

(** Conservation fails as stated, in two ways.  On whole amounts: the page
    shows [stale_partner], the user opens the editor, sets the revenue of the
    first course to 1200 and applies; the second course was never edited and
    keeps its stored contribution of 30 against a revenue of 10, so the
    recomputed contribution is 1230 against a revenue of 1210 and no cost.  On
    decimals, in binary64: two courses of revenue 1696000, into which the
    user types the costs 313893.22 and 0.1; each contribution is its revenue
    minus its cost as the script computes it, and the recomputed contribution
    is 3078106.6799999997..., below the recomputed revenue minus the
    recomputed cost. *)
Lemma unedited_course_breaks_conservation :
  ((handleEditCourse 0 Revenue 1200 (handleStartEdit stale_loaded_page)
      ≫= fun st => settlement (handleApplyEdits won st))
     ≫= fun u => Some (CompanySettlement.revenue u, CompanySettlement.ad_cost u,
                       CompanySettlement.contribution u))
  = Some (1210, 0, 1230)
  /\ binary64_totals (1 # 2) [(1696000%Q, 31389322 # 100); (1696000%Q, 1 # 10)]
     = (3392000%Q, 2696323087665725 # 8589934592, 413136485131223 # 134217728, 1539053%Q)
  /\ (413136485131223 # 134217728 < 3392000 - (2696323087665725 # 8589934592))%Q.
Proof.
  split; [vm_compute; reflexivity|]. split; [vm_compute; reflexivity|].
  vm_compute. reflexivity.
Qed.

(** X1: After an edit of every course the recomputed record passes every check. *)
Lemma recomputed_settlement_validates (fmt : Z -> string) (s : CompanySettlement.t)
    (edits : list CourseSummary.t) :
  Forall course_consistent edits ->
  validateSettlement fmt (updatedSettlement s edits) = [].
Proof.
  intros H. set (u := updatedSettlement s edits).
  pose proof (contribution_sum_consistent edits H) as Hcons.
  destruct (validate_shape fmt u) as (company & g & Heq & _).
  rewrite Heq, filter_none.
  - assert (HR : check_actual RevenueSum u = check_expected RevenueSum u)
      by (unfold u; simpl; rewrite reduce_sum_map; reflexivity).
    assert (HA : check_actual AdCostSum u = check_expected AdCostSum u)
      by (unfold u; simpl; rewrite reduce_sum_map; reflexivity).
    assert (HC : check_actual ContributionSum u = check_expected ContributionSum u)
      by (unfold u; simpl; rewrite reduce_sum_map; reflexivity).
    assert (Hno : forall chk, check_fails chk u = false).
    { intros chk. destruct (check_fails chk u) eqn:E; [|reflexivity].
      apply check_fails_spec in E.
      destruct chk; [rewrite HR in E | rewrite HA in E | rewrite HC in E | |];
        unfold u in *; simpl in *; lia. }
    simpl. now rewrite !Hno.
  - simpl. apply Forall_map. eapply List.Forall_impl; [|exact H].
    intros c Hc. unfold course_consistent in Hc.
    destruct (course_fails _) eqn:E; [|reflexivity].
    apply course_fails_spec in E. simpl in E. lia.
Qed.

(** C7: monotonicity.  Under a non-negative payout ratio, setting the revenue
    of a course of the edit buffer to a larger value, everything else in the
    buffer being the same, never gives a smaller recomputed settlement
    amount. *)
Theorem settlement_monotone_in_revenue (s : CompanySettlement.t)
    (prev u1 u2 : list CourseSummary.t) (idx : nat) (v1 v2 : Z) :
  (0 <= CompanySettlement.union_payout_ratio s)%Q ->
  v1 <= v2 ->
  editCourses_updater idx Revenue v1 prev = Some u1 ->
  editCourses_updater idx Revenue v2 prev = Some u2 ->
  CompanySettlement.settlement_amount (updatedSettlement s u1)
  <= CompanySettlement.settlement_amount (updatedSettlement s u2).
Proof.
  intros Hr Hv. unfold editCourses_updater.
  destruct (prev !! idx) as [c|] eqn:E; [|discriminate].
  intros [= <-] [= <-]. simpl.
  apply Math_round_mono, times_mono; [exact Hr|].
  rewrite !(reduce_sum_insert _ _ _ c) by exact E. simpl. lia.
Qed.

Lemma settlement_monotone_in_revenue_witness :
  CompanySettlement.settlement_amount
    (updatedSettlement (union_partner 500) [edit_course Revenue 1000 union_course])
  <= CompanySettlement.settlement_amount
       (updatedSettlement (union_partner 500) [edit_course Revenue 1201 union_course]).
Proof.
  apply (settlement_monotone_in_revenue (union_partner 500) [union_course] _ _ 0%nat 1000 1201).
  - vm_compute. discriminate.
  - lia.
  - reflexivity.
  - reflexivity.
Defined.

(** Raising the revenue of a consistent course of the buffer does not lower
    the amount recomputed from the buffer. *)
Corollary raising_revenue_keeps_amount (s : CompanySettlement.t)
    (prev updated : list CourseSummary.t) (idx : nat) (c : CourseSummary.t) (v : Z) :
  (0 <= CompanySettlement.union_payout_ratio s)%Q ->
  prev !! idx = Some c -> course_consistent c -> CourseSummary.revenue c <= v ->
  editCourses_updater idx Revenue v prev = Some updated ->
  CompanySettlement.settlement_amount (updatedSettlement s prev)
  <= CompanySettlement.settlement_amount (updatedSettlement s updated).
Proof.
  intros Hr E Hc Hv. unfold editCourses_updater. rewrite E. intros [= <-]. simpl.
  apply Math_round_mono, times_mono; [exact Hr|].
  rewrite (reduce_sum_insert _ _ _ c) by exact E. simpl.
  unfold course_consistent in Hc. lia.
Qed.

(** The first edit of a course resets a stored contribution that was not its
    revenue minus its cost: for such a course the amount after raising the
    revenue is compared with an amount that was never recomputed from the
    revenue. *)
Example stale_contribution_is_reset :
  CompanySettlement.settlement_amount
    (updatedSettlement (union_partner 500) [sample_course "course" 10 0 30]) = 15
  /\ editCourses_updater 0 Revenue 11 [sample_course "course" 10 0 30]
     = Some [sample_course "course" 11 0 11]
  /\ CompanySettlement.settlement_amount
       (updatedSettlement (union_partner 500) [sample_course "course" 11 0 11]) = 6.
Proof. repeat split. Qed.

(** * The page transition *)

(** What [handleApplyEdits] leaves in the page when a settlement and the
    period data are loaded. *)
Lemma handleApplyEdits_loaded (fmt : Z -> string) (st : PageState)
    (s : CompanySettlement.t) (fd : ParseResponse.t) :
  settlement st = Some s -> fullData st = Some fd ->
  let u := updatedSettlement s (editCourses st) in
  let fd' := updatedFullData (companyId st) fd u in
  handleApplyEdits fmt st =
  {| companyId := companyId st;
     settlement := Some u;
     fullData := Some fd';
     validationIssues := validateSettlement fmt u;
     isEditing := false;
     editCourses := editCourses st;
     approvalStatus := approvalStatus st;
     saveMessage := Some "수정이 적용되었습니다. '임시 저장'을 눌러 서버에 저장하세요.";
     sessionStorage := <["settlementData" := fd']> (sessionStorage st) |}.
Proof. intros Hs Hfd. unfold handleApplyEdits. now rewrite Hs, Hfd. Qed.

Lemma handleApplyEdits_not_loaded (fmt : Z -> string) (st : PageState) :
  settlement st = None \/ fullData st = None -> handleApplyEdits fmt st = st.
Proof.
  unfold handleApplyEdits. intros [H | H]; rewrite H; [reflexivity|].
  now destruct (settlement st).
Qed.

(** C8: determinism and idempotence.  Two runs of [handleApplyEdits] from
    pages that agree on the company, the loaded settlement, the loaded data
    and the edit buffer leave the same settlement, the same data, the same
    list of issues (fields, values, differences and messages), the same flags
    and the same stored entry, whatever else the two pages hold; and running
    the handler again on its own result changes nothing. *)
Theorem apply_edits_deterministic_idempotent (fmt : Z -> string) :
  (forall (st1 st2 : PageState) (s : CompanySettlement.t) (fd : ParseResponse.t),
     settlement st1 = Some s -> settlement st2 = Some s ->
     fullData st1 = Some fd -> fullData st2 = Some fd ->
     companyId st1 = companyId st2 -> editCourses st1 = editCourses st2 ->
     let r1 := handleApplyEdits fmt st1 in
     let r2 := handleApplyEdits fmt st2 in
     settlement r1 = settlement r2
     /\ fullData r1 = fullData r2
     /\ validationIssues r1 = validationIssues r2
     /\ isEditing r1 = isEditing r2
     /\ saveMessage r1 = saveMessage r2
     /\ sessionStorage r1 !! "settlementData" = sessionStorage r2 !! "settlementData")
  /\ (forall st : PageState,
        handleApplyEdits fmt (handleApplyEdits fmt st) = handleApplyEdits fmt st).
Proof.
  split.
  - intros st1 st2 s fd Hs1 Hs2 Hf1 Hf2 Hid He. cbv zeta.
    rewrite (handleApplyEdits_loaded fmt st1 s fd Hs1 Hf1).
    rewrite (handleApplyEdits_loaded fmt st2 s fd Hs2 Hf2).
    cbv zeta. simpl. rewrite Hid, He, !lookup_insert_eq. repeat split.
  - intros st.
    destruct (settlement st) as [s|] eqn:Hs;
      [destruct (fullData st) as [fd|] eqn:Hf|].
    + rewrite (handleApplyEdits_loaded fmt st s fd Hs Hf). cbv zeta.
      erewrite handleApplyEdits_loaded; [|reflexivity|reflexivity].
      cbv zeta. simpl.
      now rewrite updatedSettlement_idem, updatedFullData_idem, insert_insert_eq.
    + now rewrite !(handleApplyEdits_not_loaded fmt st) by auto.
    + now rewrite !(handleApplyEdits_not_loaded fmt st) by auto.
Qed.

(** C9: validation never blocks.  The validator returns a list for every
    settlement: at most one issue per company-level check and per course, each
    issue carrying the signed difference of its two values, which exceeds the
    tolerance.  And [handleApplyEdits] stores the recomputed settlement, in the
    page, in the period data and in the session storage, together with the
    issues found on that same record, whether the list of issues is empty or
    not. *)
Theorem validation_never_blocks (fmt : Z -> string) :
  (forall s : CompanySettlement.t,
     (length (validateSettlement fmt s) <= 5 + length (CompanySettlement.courses s))%nat
     /\ forall i, In i (validateSettlement fmt s) ->
          diff i = actual i - expected i /\ threshold < Z.abs (diff i))
  /\ (forall (st : PageState) (s : CompanySettlement.t) (fd : ParseResponse.t),
        settlement st = Some s -> fullData st = Some fd ->
        let u := updatedSettlement s (editCourses st) in
        let r := handleApplyEdits fmt st in
        settlement r = Some u
        /\ validationIssues r = validateSettlement fmt u
        /\ exists fd', fullData r = Some fd'
                       /\ ParseResponse.companies fd' !! companyId st = Some u
                       /\ sessionStorage r !! "settlementData" = Some fd').
Proof.
  split.
  - intros s. split.
    + rewrite validate_length. apply Nat.add_le_mono.
      * etransitivity; [apply List.filter_length_le | reflexivity].
      * apply List.filter_length_le.
    + intros i Hin. apply In_validate in Hin.
      destruct Hin as [(chk & Hfail & _ & He & Ha & Hd) | (c & _ & Hfail & _ & He & Ha & Hd)].
      * apply check_fails_spec in Hfail. rewrite Hd, He, Ha. unfold threshold. auto.
      * apply course_fails_spec in Hfail. rewrite Hd, He, Ha. unfold threshold. auto.
  - intros st s fd Hs Hf. cbv zeta.
    rewrite (handleApplyEdits_loaded fmt st s fd Hs Hf). cbv zeta. simpl.
    split; [reflexivity|]. split; [reflexivity|].
    eexists. split; [reflexivity|]. simpl. now rewrite !lookup_insert_eq.
Qed.

(** A buffer that fails two checks is stored all the same, with its issues. *)
Example stale_page_applied :
  let r := handleApplyEdits won stale_page in
  map field (validationIssues r) = ["공헌이익 공식"; "[course] 공헌이익"]
  /\ (CompanySettlement.contribution <$> settlement r) = Some 30
  /\ isEditing r = false.
Proof. repeat split. Qed.

(** C10: the frame of the recomputation.  [handleApplyEdits] replaces the
    entry of the page's company in the companies of the period data and
    leaves the entry of every other company id as it was; each of the four
    summary fields becomes the sum of its field over the companies of the
    updated map; the other fields of the period data are kept. *)
Theorem apply_edits_frame (fmt : Z -> string) (st : PageState)
    (s : CompanySettlement.t) (fd : ParseResponse.t) :
  settlement st = Some s -> fullData st = Some fd ->
  exists fd' : ParseResponse.t,
    fullData (handleApplyEdits fmt st) = Some fd'
    /\ ParseResponse.companies fd' !! companyId st
       = Some (updatedSettlement s (editCourses st))
    /\ (forall k : string, k <> companyId st ->
          ParseResponse.companies fd' !! k = ParseResponse.companies fd !! k)
    /\ Summary.total_revenue (ParseResponse.summary fd')
       = reduce_sum CompanySettlement.revenue (Object_values (ParseResponse.companies fd'))
    /\ Summary.total_ad_cost (ParseResponse.summary fd')
       = reduce_sum CompanySettlement.ad_cost (Object_values (ParseResponse.companies fd'))
    /\ Summary.total_contribution (ParseResponse.summary fd')
       = reduce_sum CompanySettlement.contribution
           (Object_values (ParseResponse.companies fd'))
    /\ Summary.total_settlement (ParseResponse.summary fd')
       = reduce_sum CompanySettlement.settlement_amount
           (Object_values (ParseResponse.companies fd'))
    /\ ParseResponse.period fd' = ParseResponse.period fd
    /\ ParseResponse.courses fd' = ParseResponse.courses fd
    /\ ParseResponse.companies_info fd' = ParseResponse.companies_info fd.
Proof.
  intros Hs Hf. rewrite (handleApplyEdits_loaded fmt st s fd Hs Hf). cbv zeta.
  eexists. split; [reflexivity|]. simpl.
  split; [apply lookup_insert_eq|].
  split; [intros k Hk; now apply lookup_insert_ne|].
  repeat split.
Qed.

Lemma apply_edits_frame_witness :
  exists fd' : ParseResponse.t,
    fullData (handleApplyEdits won editing_page) = Some fd'
    /\ ParseResponse.companies fd' !! "union"
       = Some (updatedSettlement (union_partner 500) [union_course])
    /\ ParseResponse.companies fd' !! "other" = Some half_partner
    /\ Summary.total_revenue (ParseResponse.summary fd') = 1005.
Proof.
  destruct (apply_edits_frame won editing_page (union_partner 500) two_companies
              eq_refl eq_refl)
    as (fd' & Hfd & Hid & Hother & Hrev & _).
  exists fd'. split; [exact Hfd|]. split; [exact Hid|]. split.
  - rewrite Hother by discriminate. reflexivity.
  - rewrite Hrev. injection Hfd as <-. vm_compute. reflexivity.
Defined.

(** The summary after the edit: the new record's field plus the sum over the
    other companies, which the edit does not touch. *)
Lemma summary_after_edit (id : string) (fd : ParseResponse.t) (u : CompanySettlement.t) :
  let fd' := updatedFullData id fd u in
  let others := Object_values (delete id (ParseResponse.companies fd)) in
  Summary.total_revenue (ParseResponse.summary fd')
    = CompanySettlement.revenue u + reduce_sum CompanySettlement.revenue others
  /\ Summary.total_ad_cost (ParseResponse.summary fd')
     = CompanySettlement.ad_cost u + reduce_sum CompanySettlement.ad_cost others
  /\ Summary.total_contribution (ParseResponse.summary fd')
     = CompanySettlement.contribution u + reduce_sum CompanySettlement.contribution others
  /\ Summary.total_settlement (ParseResponse.summary fd')
     = CompanySettlement.settlement_amount u
       + reduce_sum CompanySettlement.settlement_amount others.
Proof. cbv zeta. simpl. repeat split; apply Object_values_insert. Qed.

(** * Further properties of the pages *)

(** ** More on the recomputation *)

Lemma recomputed_settlement_validates_witness :
  validateSettlement won
    (updatedSettlement (union_partner 375) [edit_course AdCost 300 union_course]) = [].
Proof.
  apply (recomputed_settlement_validates won (union_partner 375)).
  repeat constructor.
Defined.

(** X2: Whatever the edit buffer holds, the record recomputed from it passes the
    three sum checks and the settlement check: only the contribution formula
    check and the checks of single courses can still fail, and the formula
    check fails exactly when the contributions of the buffer are more than 2
    away from its revenues minus its costs. *)
Theorem recomputed_totals_pass (fmt : Z -> string) (s : CompanySettlement.t)
    (edits : list CourseSummary.t) :
  let u := updatedSettlement s edits in
  (forall chk : Check, chk <> ContributionFormula ->
     ~ has_issue (check_field chk) (validateSettlement fmt u))
  /\ (has_issue (check_field ContributionFormula) (validateSettlement fmt u) <->
        2 < Z.abs (reduce_sum CourseSummary.contribution edits
                   - (reduce_sum CourseSummary.revenue edits
                      - reduce_sum CourseSummary.ad_cost edits)))
  /\ (forall i, In i (validateSettlement fmt u) ->
        field i = check_field ContributionFormula
        \/ exists c, In c edits /\ field i = course_field c
                     /\ 2 < Z.abs (CourseSummary.contribution c
                                   - (CourseSummary.revenue c - CourseSummary.ad_cost c))).
Proof.
  cbv zeta. set (u := updatedSettlement s edits).
  assert (HR : check_actual RevenueSum u = check_expected RevenueSum u)
    by (unfold u; simpl; rewrite reduce_sum_map; reflexivity).
  assert (HA : check_actual AdCostSum u = check_expected AdCostSum u)
    by (unfold u; simpl; rewrite reduce_sum_map; reflexivity).
  assert (HC : check_actual ContributionSum u = check_expected ContributionSum u)
    by (unfold u; simpl; rewrite reduce_sum_map; reflexivity).
  assert (Hpass : forall chk, chk <> ContributionFormula -> check_fails chk u = false).
  { intros chk Hne. destruct (check_fails chk u) eqn:E; [|reflexivity].
    apply check_fails_spec in E.
    destruct chk; [rewrite HR in E | rewrite HA in E | rewrite HC in E | congruence |];
      unfold u in *; simpl in *; lia. }
  split; [|split].
  - intros chk Hne Hissue. apply has_issue_check in Hissue.
    rewrite (Hpass chk Hne) in Hissue. discriminate.
  - rewrite has_issue_check, check_fails_spec. reflexivity.
  - intros i Hin. apply In_validate in Hin.
    destruct Hin as [(chk & Hfail & Hf & _) | (c & Hc & Hfail & Hf & _)].
    + left. assert (chk = ContributionFormula) as ->; [|exact Hf].
      destruct chk; try reflexivity; rewrite Hpass in Hfail; discriminate.
    + right. unfold u in Hc. simpl in Hc. apply in_map_iff in Hc.
      destruct Hc as (c0 & <- & Hc0). exists c0. split; [exact Hc0|].
      split; [exact Hf|]. apply course_fails_spec in Hfail. exact Hfail.
Qed.

(** X3: On whole amounts the summary follows the edit by the difference it
    makes: when a total of the summary was the sum over the companies before
    the edit, the total after it is the old total, minus what the company
    contributed before (0 for a company that was not in the data), plus what
    it contributes now.  (The script adds the amounts of all companies anew;
    on whole amounts below 2^53 that sum is exact and is this difference, on
    decimals it is a rounded sum.) *)
Theorem summary_moves_by_delta (id : string) (fd : ParseResponse.t) (u : CompanySettlement.t) :
  Summary.total_revenue (ParseResponse.summary fd)
    = reduce_sum CompanySettlement.revenue (Object_values (ParseResponse.companies fd)) ->
  Summary.total_ad_cost (ParseResponse.summary fd)
    = reduce_sum CompanySettlement.ad_cost (Object_values (ParseResponse.companies fd)) ->
  Summary.total_contribution (ParseResponse.summary fd)
    = reduce_sum CompanySettlement.contribution (Object_values (ParseResponse.companies fd)) ->
  Summary.total_settlement (ParseResponse.summary fd)
    = reduce_sum CompanySettlement.settlement_amount
        (Object_values (ParseResponse.companies fd)) ->
  let fd' := updatedFullData id fd u in
  let before (f : CompanySettlement.t -> Z) :=
    from_option f 0 (ParseResponse.companies fd !! id) in
  Summary.total_revenue (ParseResponse.summary fd')
    = Summary.total_revenue (ParseResponse.summary fd)
      - before CompanySettlement.revenue + CompanySettlement.revenue u
  /\ Summary.total_ad_cost (ParseResponse.summary fd')
     = Summary.total_ad_cost (ParseResponse.summary fd)
       - before CompanySettlement.ad_cost + CompanySettlement.ad_cost u
  /\ Summary.total_contribution (ParseResponse.summary fd')
     = Summary.total_contribution (ParseResponse.summary fd)
       - before CompanySettlement.contribution + CompanySettlement.contribution u
  /\ Summary.total_settlement (ParseResponse.summary fd')
     = Summary.total_settlement (ParseResponse.summary fd)
       - before CompanySettlement.settlement_amount + CompanySettlement.settlement_amount u.
Proof.
  intros HR HA HC HS. cbv zeta. simpl. rewrite HR, HA, HC, HS.
  assert (Hdelta : forall f : CompanySettlement.t -> Z,
    reduce_sum f (Object_values (<[id := u]> (ParseResponse.companies fd)))
    = reduce_sum f (Object_values (ParseResponse.companies fd))
      - from_option f 0 (ParseResponse.companies fd !! id) + f u).
  { intros f. rewrite Object_values_insert.
    destruct (ParseResponse.companies fd !! id) as [old|] eqn:E; simpl.
    - rewrite (Object_values_lookup f _ id old E). lia.
    - rewrite (delete_id _ _ E). lia. }
  repeat split; apply Hdelta.
Qed.

Lemma summary_moves_by_delta_witness :
  Summary.total_revenue
    (ParseResponse.summary
       (updatedFullData "union"
          (updatedFullData "union" two_companies (union_partner 500)) half_partner))
  = 1005 - 1000 + 5.
Proof.
  pose proof (summary_moves_by_delta "union"
                (updatedFullData "union" two_companies (union_partner 500)) half_partner
                eq_refl eq_refl eq_refl eq_refl) as (H & _).
  rewrite H. vm_compute. reflexivity.
Defined.

(** ** Edits of the buffer *)

(** X4: An edit keeps the length of the buffer and every other course; the edited
    course keeps its identity, its share and its other amount, takes the new
    value in the edited field, and has its contribution recomputed. *)
Theorem edit_touches_one_course (idx : nat) (fld : EditField) (value : Z)
    (prev updated : list CourseSummary.t) :
  editCourses_updater idx fld value prev = Some updated ->
  length updated = length prev
  /\ (forall j : nat, j <> idx -> updated !! j = prev !! j)
  /\ exists c c' : CourseSummary.t,
       prev !! idx = Some c /\ updated !! idx = Some c'
       /\ CourseSummary.course_id c' = CourseSummary.course_id c
       /\ CourseSummary.course_name c' = CourseSummary.course_name c
       /\ CourseSummary.revenue_share c' = CourseSummary.revenue_share c
       /\ CourseSummary.revenue c'
          = match fld with Revenue => value | AdCost => CourseSummary.revenue c end
       /\ CourseSummary.ad_cost c'
          = match fld with Revenue => CourseSummary.ad_cost c | AdCost => value end
       /\ CourseSummary.contribution c' = CourseSummary.revenue c' - CourseSummary.ad_cost c'.
Proof.
  unfold editCourses_updater. destruct (prev !! idx) as [c|] eqn:E; [|discriminate].
  intros [= <-]. split; [apply length_insert|]. split.
  - intros j Hj. now apply list_lookup_insert_ne.
  - exists c, (edit_course fld value c). split; [reflexivity|]. split.
    + apply list_lookup_insert_eq. now apply lookup_lt_Some in E.
    + destruct fld; repeat split.
Qed.

Lemma edit_touches_one_course_witness :
  length [edit_course Revenue 1200 union_course; half_course]
  = length [union_course; half_course]
  /\ [edit_course Revenue 1200 union_course; half_course] !! 1%nat = Some half_course.
Proof.
  destruct (edit_touches_one_course 0 Revenue 1200 [union_course; half_course]
              [edit_course Revenue 1200 union_course; half_course] eq_refl)
    as (Hlen & Hframe & _).
  split; [exact Hlen|]. rewrite (Hframe 1%nat) by discriminate. reflexivity.
Defined.

Lemma edit_course_commute (f g : EditField) (v w : Z) (c : CourseSummary.t) :
  f <> g -> edit_course f v (edit_course g w c) = edit_course g w (edit_course f v c).
Proof. destruct f, g; intros H; try congruence; reflexivity. Qed.

Lemma edit_course_overwrite (f : EditField) (v w : Z) (c : CourseSummary.t) :
  edit_course f w (edit_course f v c) = edit_course f w c.
Proof. destruct f; reflexivity. Qed.

(** X5: Two edits commute when they differ in the course or in the field, and a
    second edit of the same field of the same course replaces the first: the
    buffer holds the last value typed into each field, in whatever order the
    fields were visited. *)
Theorem edits_commute_last_write_wins (i j : nat) (f g : EditField) (v w : Z)
    (prev : list CourseSummary.t) :
  (i <> j \/ f <> g ->
     editCourses_updater i f v prev ≫= editCourses_updater j g w
     = editCourses_updater j g w prev ≫= editCourses_updater i f v)
  /\ editCourses_updater i f v prev ≫= editCourses_updater i f w
     = editCourses_updater i f w prev.
Proof.
  unfold editCourses_updater. split.
  - intros Hne. destruct (decide (i = j)) as [<- | Hij].
    + destruct Hne as [Hne | Hne]; [congruence|].
      destruct (prev !! i) as [c|] eqn:E; simpl; [|reflexivity].
      apply lookup_lt_Some in E.
      rewrite !list_lookup_insert_eq by exact E.
      rewrite !list_insert_insert_eq. now rewrite edit_course_commute by congruence.
    + destruct (prev !! i) as [c|] eqn:Ei; destruct (prev !! j) as [d|] eqn:Ej; simpl;
        rewrite ?list_lookup_insert_ne by congruence; rewrite ?Ei, ?Ej; try reflexivity.
      now rewrite list_insert_insert_ne by congruence.
  - destruct (prev !! i) as [c|] eqn:E; simpl; [|reflexivity].
    apply lookup_lt_Some in E.
    rewrite list_lookup_insert_eq by exact E.
    now rewrite list_insert_insert_eq, edit_course_overwrite.
Qed.

Lemma map_fixed {A : Type} (h : A -> A) (l : list A) :
  map h l = l <-> Forall (fun x => h x = x) l.
Proof.
  induction l as [|x l IH]; simpl.
  - split; [constructor | reflexivity].
  - split.
    + intros [= Hx Hl]. constructor; [exact Hx | now apply IH].
    + intros H. inversion H as [|? ? Hx Hl]; subst. rewrite Hx. f_equal. now apply IH.
Qed.

Lemma with_revenue_share_fixed (ratio : Q) (c : CourseSummary.t) :
  with_revenue_share ratio c = c
  <-> CourseSummary.revenue_share c = Math_round (times (CourseSummary.contribution c) ratio).
Proof.
  split.
  - intros H. rewrite <- H at 1. reflexivity.
  - intros H. destruct c; simpl in *. unfold with_revenue_share. simpl. now rewrite <- H.
Qed.

(** X6: Opening the editor and applying without a change is not always a no-op:
    it leaves the settlement as it was exactly when the record already was
    what the recomputation makes of its courses (totals equal to the course
    sums, amount and payout equal to the rounded product, every course share
    rounded from its own contribution and the company share their sum).
    Otherwise the record on the page is rewritten although nothing was
    typed. *)
Theorem unchanged_edit_round_trip (fmt : Z -> string) (st : PageState)
    (s : CompanySettlement.t) (fd : ParseResponse.t) :
  settlement st = Some s -> fullData st = Some fd -> isApproved st = false ->
  settlement (handleApplyEdits fmt (handleStartEdit st)) = Some s
  <-> (CompanySettlement.revenue s
         = reduce_sum CourseSummary.revenue (CompanySettlement.courses s)
       /\ CompanySettlement.ad_cost s
          = reduce_sum CourseSummary.ad_cost (CompanySettlement.courses s)
       /\ CompanySettlement.contribution s
          = reduce_sum CourseSummary.contribution (CompanySettlement.courses s)
       /\ CompanySettlement.settlement_amount s
          = Math_round (times (CompanySettlement.contribution s)
                              (CompanySettlement.union_payout_ratio s))
       /\ CompanySettlement.union_payout s = CompanySettlement.settlement_amount s
       /\ CompanySettlement.revenue_share s
          = reduce_sum CourseSummary.revenue_share (CompanySettlement.courses s)
       /\ Forall (fun c => CourseSummary.revenue_share c
                           = Math_round (times (CourseSummary.contribution c)
                                               (CompanySettlement.union_payout_ratio s)))
                 (CompanySettlement.courses s)).
Proof.
  intros Hs Hf Ha.
  assert (Hstart : settlement (handleStartEdit st) = Some s
                   /\ fullData (handleStartEdit st) = Some fd
                   /\ editCourses (handleStartEdit st) = CompanySettlement.courses s).
  { unfold handleStartEdit. rewrite Hs, Ha. simpl. now rewrite map_id. }
  destruct Hstart as (Hs' & Hf' & He').
  rewrite (handleApplyEdits_loaded fmt _ s fd Hs' Hf'). cbv zeta. simpl. rewrite He'.
  set (r := CompanySettlement.union_payout_ratio s).
  split.
  - intros [= H].
    assert (Hc : map (with_revenue_share r) (CompanySettlement.courses s)
                 = CompanySettlement.courses s)
      by exact (f_equal CompanySettlement.courses H).
    pose proof (f_equal CompanySettlement.revenue H) as H1.
    pose proof (f_equal CompanySettlement.ad_cost H) as H2.
    pose proof (f_equal CompanySettlement.contribution H) as H3.
    pose proof (f_equal CompanySettlement.settlement_amount H) as H4.
    pose proof (f_equal CompanySettlement.union_payout H) as H5.
    pose proof (f_equal CompanySettlement.revenue_share H) as H6.
    simpl in H1, H2, H3, H4, H5, H6. fold r in H4, H5, H6. rewrite Hc in H6.
    repeat split; try congruence.
    apply map_fixed in Hc. eapply List.Forall_impl; [|exact Hc].
    intros c. apply with_revenue_share_fixed.
  - intros (H1 & H2 & H3 & H4 & H5 & H6 & H7). f_equal.
    assert (Hc : map (with_revenue_share r) (CompanySettlement.courses s)
                 = CompanySettlement.courses s).
    { apply map_fixed. eapply List.Forall_impl; [|exact H7].
      intros c. apply with_revenue_share_fixed. }
    unfold updatedSettlement. fold r. rewrite Hc. subst r.
    destruct s as [nm rv ac ct rs sa up upr cs]. simpl in *. subst. reflexivity.
Qed.

Lemma unchanged_edit_round_trip_witness :
  settlement
    (handleApplyEdits won
       (handleStartEdit
          (sample_page "union" (updatedSettlement (union_partner 500) [union_course])
             two_companies [])))
  = Some (updatedSettlement (union_partner 500) [union_course]).
Proof.
  apply (unchanged_edit_round_trip won
           (sample_page "union" (updatedSettlement (union_partner 500) [union_course])
              two_companies [])
           (updatedSettlement (union_partner 500) [union_course]) two_companies
           eq_refl eq_refl eq_refl).
  repeat split. repeat constructor.
Defined.

(** X7: The issues come in the order of the source: the failing company-level
    checks in their fixed order, then the failing courses in the order of the
    course list. *)
Theorem issues_in_source_order (fmt : Z -> string) (s : CompanySettlement.t) :
  map field (validateSettlement fmt s)
  = map check_field (List.filter (fun chk => check_fails chk s) all_checks)
    ++ map course_field (List.filter course_fails (CompanySettlement.courses s)).
Proof.
  destruct (validate_shape fmt s) as (company & g & Heq & Hc & Hg).
  rewrite Heq, map_app. f_equal.
  - unfold all_checks. simpl.
    repeat match goal with
           | |- context [check_fails ?c s] =>
               destruct (check_fails c s); simpl; rewrite ?(proj1 (Hc c))
           end; reflexivity.
  - rewrite map_map. apply map_ext. intros c. apply Hg.
Qed.

(** * Period labels *)

Lemma match_quarter_Some (period year quarter : string) :
  match_quarter period = Some (year, quarter) ->
  exists y1 y2 y3 y4 q : ascii,
    period = String y1 (String y2 (String y3 (String y4
               (String "-" (String "Q" (String q EmptyString))))))
    /\ year = String y1 (String y2 (String y3 (String y4 EmptyString)))
    /\ quarter = String q EmptyString
    /\ is_digit y1 = true /\ is_digit y2 = true /\ is_digit y3 = true
    /\ is_digit y4 = true /\ is_digit q = true.
Proof.
  destruct period as [|y1 [|y2 [|y3 [|y4 [|h [|l [|q [|? ?]]]]]]]]; simpl; try discriminate.
  destruct (is_digit y1) eqn:E1; simpl; [|discriminate].
  destruct (is_digit y2) eqn:E2; simpl; [|discriminate].
  destruct (is_digit y3) eqn:E3; simpl; [|discriminate].
  destruct (is_digit y4) eqn:E4; simpl; [|discriminate].
  destruct (Ascii.eqb h "-") eqn:Eh; simpl; [|discriminate].
  destruct (Ascii.eqb l "Q") eqn:El; simpl; [|discriminate].
  destruct (is_digit q) eqn:Eq; simpl; [|discriminate].
  apply Ascii.eqb_eq in Eh, El. subst h l.
  intros [= <- <-]. exists y1, y2, y3, y4, q. repeat split; assumption.
Qed.

(** X8: A label is never taken for a period again: labelling twice is labelling
    once, for quarter periods and for any other string. *)
Theorem formatPeriodLabel_idempotent (period : string) :
  formatPeriodLabel (formatPeriodLabel period) = formatPeriodLabel period.
Proof.
  unfold formatPeriodLabel at 2 3.
  destruct (match_quarter period) as [[year quarter]|] eqn:E.
  - apply match_quarter_Some in E.
    destruct E as (y1 & y2 & y3 & y4 & q & _ & -> & -> & _). reflexivity.
  - unfold formatPeriodLabel. now rewrite E.
Qed.

(** X9: Two quarter periods with the same label are the same period. *)
Theorem formatPeriodLabel_injective (p1 p2 : string) :
  is_Some (match_quarter p1) -> is_Some (match_quarter p2) ->
  formatPeriodLabel p1 = formatPeriodLabel p2 -> p1 = p2.
Proof.
  intros [[ya qa] Ha] [[yb qb] Hb]. unfold formatPeriodLabel. rewrite Ha, Hb.
  apply match_quarter_Some in Ha, Hb.
  destruct Ha as (a1 & a2 & a3 & a4 & a & -> & -> & -> & _).
  destruct Hb as (b1 & b2 & b3 & b4 & b & -> & -> & -> & _).
  simpl. intros [= -> -> -> -> ->]. reflexivity.
Qed.

Lemma formatPeriodLabel_injective_witness :
  is_Some (match_quarter "2025-Q4") /\ "2025-Q4" = "2025" +:+ "-Q4".
Proof.
  split; [now eexists|].
  apply (formatPeriodLabel_injective "2025-Q4" ("2025" +:+ "-Q4")).
  - now eexists.
  - now eexists.
  - reflexivity.
Defined.

(** * The list page *)

Section SortByKey.

Context {A : Type} (key : A -> Z).

(** The comparator [(a, b) => key(b) - key(a)]: descending by [key]. *)
Let desc (a b : A) : Z := key b - key a.

Lemma sort_insert_Permutation (cmp : A -> A -> Z) (x : A) (l : list A) :
  sort_insert cmp x l ≡ₚ x :: l.
Proof.
  induction l as [|y l IH]; simpl; [reflexivity|].
  destruct (cmp x y <=? 0); [reflexivity|].
  rewrite IH. apply perm_swap.
Qed.

Lemma Array_sort_Permutation (cmp : A -> A -> Z) (l : list A) : Array_sort cmp l ≡ₚ l.
Proof.
  induction l as [|x l IH]; simpl; [reflexivity|].
  now rewrite sort_insert_Permutation, IH.
Qed.

Lemma sort_insert_sorted (x : A) (l : list A) :
  StronglySorted (fun a b => key b <= key a) l ->
  StronglySorted (fun a b => key b <= key a) (sort_insert desc x l).
Proof.
  induction 1 as [|y l Hl IH Hy]; simpl.
  - repeat constructor.
  - unfold desc at 1. destruct (key y - key x <=? 0) eqn:E.
    + apply Z.leb_le in E. constructor; [now constructor|].
      constructor; [lia|]. eapply List.Forall_impl; [|exact Hy]. simpl. intros; lia.
    + apply Z.leb_gt in E. constructor; [exact IH|].
      rewrite sort_insert_Permutation. constructor; [lia | exact Hy].
Qed.

Lemma Array_sort_sorted (l : list A) :
  StronglySorted (fun a b => key b <= key a) (Array_sort desc l).
Proof.
  induction l as [|x l IH]; simpl; [constructor | now apply sort_insert_sorted].
Qed.

(** Elements of one key keep the order they had. *)
Lemma sort_insert_stable (k : Z) (x : A) (l : list A) :
  List.filter (fun a => key a =? k) (sort_insert desc x l)
  = List.filter (fun a => key a =? k) (x :: l).
Proof.
  induction l as [|y l IH]; [reflexivity|]. simpl.
  unfold desc at 1. destruct (key y - key x <=? 0) eqn:E; [reflexivity|].
  apply Z.leb_gt in E. simpl in *. rewrite IH.
  destruct (key x =? k) eqn:Ex; [|reflexivity].
  destruct (key y =? k) eqn:Ey; [|reflexivity].
  apply Z.eqb_eq in Ex, Ey. lia.
Qed.

Lemma Array_sort_stable (k : Z) (l : list A) :
  List.filter (fun a => key a =? k) (Array_sort desc l)
  = List.filter (fun a => key a =? k) l.
Proof.
  induction l as [|x l IH]; [reflexivity|]. simpl.
  rewrite sort_insert_stable. simpl. now rewrite IH.
Qed.

End SortByKey.

Lemma StronglySorted_lookup {A : Type} (R : A -> A -> Prop) (l : list A) (i j : nat) (a b : A) :
  StronglySorted R l -> (i < j)%nat -> l !! i = Some a -> l !! j = Some b -> R a b.
Proof.
  intros Hs. revert i j. induction Hs as [|x l Hl IH Hx]; intros i j Hij Hi Hj.
  - discriminate.
  - destruct j as [|j]; [lia|]. destruct i as [|i]; simpl in *.
    + injection Hi as ->. rewrite List.Forall_forall in Hx. apply Hx.
      apply list_elem_of_In, list_elem_of_lookup. eauto.
    + apply (IH i j); [lia | assumption | assumption].
Qed.

Lemma map_imap_proj {A B C : Type} (g : B -> C) (h : A -> C) (f : nat -> A -> B)
    (l : list A) :
  (forall i x, g (f i x) = h x) -> map g (imap f l) = map h l.
Proof.
  revert f. induction l as [|x l IH]; intros f H; simpl; [reflexivity|].
  rewrite H. f_equal. apply IH. intros i y. apply H.
Qed.

Lemma sorted_entries_desc (entries : list (string * CompanySettlement.t)) :
  StronglySorted
    (fun a b => CompanySettlement.settlement_amount b.2
                <= CompanySettlement.settlement_amount a.2)
    (Array_sort by_settlement_amount_desc entries).
Proof. apply (Array_sort_sorted (fun e => CompanySettlement.settlement_amount e.2)). Qed.

Lemma companyList_of_lookup (data : ParseResponse.t)
    (status : gmap string ApprovalStatus.t) (entries : list (string * CompanySettlement.t))
    (k : nat) (row : CompanyListItem.t) :
  companyList_of data status entries !! k = Some row ->
  exists entry, Array_sort by_settlement_amount_desc entries !! k = Some entry
                /\ CompanyListItem.id row = entry.1
                /\ CompanyListItem.idx row = Z.of_nat k + 1
                /\ CompanyListItem.share row = CompanySettlement.settlement_amount entry.2
                /\ CompanyListItem.profit row = CompanySettlement.contribution entry.2
                /\ CompanyListItem.approved row
                   = match status !! entry.1 with
                     | Some a => ApprovalStatus.approved a
                     | None => false
                     end.
Proof.
  unfold companyList_of. rewrite list_lookup_imap.
  destruct (Array_sort by_settlement_amount_desc entries !! k) as [entry|]; [|discriminate].
  simpl. intros [= <-]. exists entry. repeat split.
Qed.

(** X10: The rows of the list page are the companies, each once, largest
    settlement amount first: the ids of the rows are a rearrangement of the
    ids of the entries, a row further down never has a larger amount, the
    row at position [k] is numbered [k + 1], and each row shows the amount and
    the contribution of its own company. *)
Theorem companyList_sorted (data : ParseResponse.t)
    (status : gmap string ApprovalStatus.t) (entries : list (string * CompanySettlement.t)) :
  let rows := companyList_of data status entries in
  map CompanyListItem.id rows ≡ₚ map fst entries
  /\ length rows = length entries
  /\ (forall (i j : nat) (a b : CompanyListItem.t),
        (i < j)%nat -> rows !! i = Some a -> rows !! j = Some b ->
        CompanyListItem.share b <= CompanyListItem.share a)
  /\ (forall (k : nat) (row : CompanyListItem.t),
        rows !! k = Some row ->
        CompanyListItem.idx row = Z.of_nat k + 1
        /\ exists s, In (CompanyListItem.id row, s) entries
                     /\ CompanyListItem.share row = CompanySettlement.settlement_amount s
                     /\ CompanyListItem.profit row = CompanySettlement.contribution s).
Proof.
  cbv zeta. split; [|split; [|split]].
  - rewrite <- (Array_sort_Permutation by_settlement_amount_desc entries) at 2.
    unfold companyList_of. generalize (Array_sort by_settlement_amount_desc entries).
    intros l. apply Permutation_refl'. now apply map_imap_proj.
  - unfold companyList_of.
    now rewrite length_imap, (Permutation_length (Array_sort_Permutation _ entries)).
  - intros i j a b Hij Ha Hb.
    apply companyList_of_lookup in Ha, Hb.
    destruct Ha as (ea & Ha & _ & _ & -> & _). destruct Hb as (eb & Hb & _ & _ & -> & _).
    exact (StronglySorted_lookup _ _ i j ea eb (sorted_entries_desc entries) Hij Ha Hb).
  - intros k row Hrow. apply companyList_of_lookup in Hrow.
    destruct Hrow as ([id s] & Hk & Hid & Hidx & Hshare & Hprofit & _).
    split; [exact Hidx|]. exists s. simpl in *. rewrite Hid. repeat split; try assumption.
    apply (Permutation_in _ (Array_sort_Permutation by_settlement_amount_desc entries)).
    apply list_elem_of_In, list_elem_of_lookup. eauto.
Qed.

Lemma filter_imap_proj {A B C : Type} (p : B -> bool) (q : A -> bool) (g : B -> C)
    (h : A -> C) (f : nat -> A -> B) (l : list A) :
  (forall i x, p (f i x) = q x) -> (forall i x, g (f i x) = h x) ->
  map g (List.filter p (imap f l)) = map h (List.filter q l).
Proof.
  revert f. induction l as [|x l IH]; intros f Hp Hg; simpl; [reflexivity|].
  rewrite Hp. destruct (q x); simpl; rewrite ?Hg; [f_equal|];
    apply IH; intros i y; [apply Hp | apply Hg | apply Hp | apply Hg].
Qed.

Lemma List_filter_Permutation {A : Type} (p : A -> bool) (l1 l2 : list A) :
  l1 ≡ₚ l2 -> List.filter p l1 ≡ₚ List.filter p l2.
Proof.
  induction 1 as [| x l1 l2 _ IH | x y l | l1 l2 l3 _ IH1 _ IH2]; simpl.
  - reflexivity.
  - destruct (p x); [now constructor | exact IH].
  - destruct (p x), (p y); try reflexivity. apply perm_swap.
  - now rewrite IH1.
Qed.

Lemma List_filter_all {A : Type} (p : A -> bool) (l : list A) :
  Forall (fun x => p x = true) l -> List.filter p l = l.
Proof.
  induction 1 as [|x l Hx _ IH]; [reflexivity|]. simpl. now rewrite Hx, IH.
Qed.

(** X11: Companies with the same settlement amount stay in the order in which the
    data lists them. *)
Theorem companyList_ties_keep_order (data : ParseResponse.t)
    (status : gmap string ApprovalStatus.t) (entries : list (string * CompanySettlement.t))
    (amount : Z) :
  map CompanyListItem.id
    (List.filter (fun row => CompanyListItem.share row =? amount)
                 (companyList_of data status entries))
  = map fst
      (List.filter (fun entry => CompanySettlement.settlement_amount entry.2 =? amount)
                   entries).
Proof.
  unfold companyList_of.
  rewrite (filter_imap_proj _
             (fun entry => CompanySettlement.settlement_amount entry.2 =? amount) _ fst)
    by reflexivity.
  f_equal.
  apply (Array_sort_stable (fun e => CompanySettlement.settlement_amount e.2)).
Qed.

(** X12: The count of approved rows is the number of companies whose own status
    says approved, a company without a status counting as not approved; it
    never exceeds the number of companies. *)
Theorem approvedCount_counts_statuses (data : ParseResponse.t)
    (status : gmap string ApprovalStatus.t) (entries : list (string * CompanySettlement.t)) :
  approvedCount (companyList_of data status entries)
  = length (List.filter
              (fun entry : string * CompanySettlement.t =>
                 match status !! entry.1 with
                 | Some a => ApprovalStatus.approved a
                 | None => false
                 end) entries)
  /\ (approvedCount (companyList_of data status entries) <= length entries)%nat.
Proof.
  assert (H : approvedCount (companyList_of data status entries)
              = length (List.filter
                          (fun entry : string * CompanySettlement.t =>
                             match status !! entry.1 with
                             | Some a => ApprovalStatus.approved a
                             | None => false
                             end) entries)).
  { unfold approvedCount, companyList_of.
    rewrite <- (length_map CompanyListItem.id).
    rewrite (filter_imap_proj _
               (fun entry : string * CompanySettlement.t =>
                  match status !! entry.1 with
                  | Some a => ApprovalStatus.approved a
                  | None => false
                  end) _ fst) by reflexivity.
    rewrite length_map. apply Permutation_length, List_filter_Permutation.
    apply Array_sort_Permutation. }
  split; [exact H|]. rewrite H. apply List.filter_length_le.
Qed.

(** * The bulk mail dialog *)

Lemma elem_of_initial_selected (cl : list CompanyListItem.t) (id : string) :
  id ∈ initial_selected cl
  <-> exists c, In c cl /\ CompanyListItem.id c = id
                /\ CompanyListItem.approved c = true
                /\ id <> "plusx"
                /\ CompanyListItem.contactEmail c <> EmptyString.
Proof.
  unfold initial_selected, selectable, approvedCompanies.
  rewrite elem_of_list_to_set, list_elem_of_In, in_map_iff. split.
  - intros (c & <- & Hc). apply filter_In in Hc. destruct Hc as (Hc & Hmail).
    apply filter_In in Hc. destruct Hc as (Hc & Hok).
    apply andb_true_iff in Hok. destruct Hok as (Hap & Hne).
    exists c. repeat split; try assumption.
    + intros Heq. rewrite Heq in Hne. discriminate.
    + unfold hasEmail in Hmail. intros Heq. rewrite Heq in Hmail. discriminate.
  - intros (c & Hc & <- & Hap & Hne & Hmail). exists c. split; [reflexivity|].
    apply filter_In. split.
    + apply filter_In. split; [exact Hc|]. rewrite Hap. simpl.
      apply negb_true_iff, String.eqb_neq. exact Hne.
    + unfold hasEmail. destruct (CompanyListItem.contactEmail c); congruence.
Qed.

Lemma modal_selection_subseteq (cl : list CompanyListItem.t) (selected : gset string) :
  modal_selection cl selected -> selected ⊆ initial_selected cl.
Proof.
  induction 1 as [| c sel Hc _ IH | sel _ IH].
  - reflexivity.
  - unfold onRowChange. destruct (hasEmail c) eqn:Hmail; [|exact IH].
    assert (CompanyListItem.id c ∈ initial_selected cl).
    { unfold initial_selected, selectable. rewrite elem_of_list_to_set, list_elem_of_In.
      apply in_map, filter_In. auto. }
    unfold toggleSelect. case_decide; set_solver.
  - unfold toggleAll. case_decide; [set_solver | reflexivity].
Qed.

(** X13: Whatever is clicked in the dialog, mail is requested only for approved
    companies that have a contact address, and never for the operating
    company: every id of a reachable selection, and so every id handed to
    [sendBulkEmail], belongs to such a row; with nothing selected or without
    confirmation no request is made. *)
Theorem bulk_mail_recipients_safe (cl : list CompanyListItem.t) (selected : gset string) :
  modal_selection cl selected ->
  (forall id : string, id ∈ selected ->
     exists c, In c cl /\ CompanyListItem.id c = id
               /\ CompanyListItem.approved c = true
               /\ id <> "plusx"
               /\ CompanyListItem.contactEmail c <> EmptyString)
  /\ (forall (confirmed : bool) (ids : list string),
        handleSend confirmed selected = Some ids ->
        confirmed = true /\ ids <> []
        /\ forall id : string, In id ids -> id ∈ initial_selected cl /\ id <> "plusx").
Proof.
  intros Hsel. pose proof (modal_selection_subseteq cl selected Hsel) as Hsub. split.
  - intros id Hid. apply elem_of_initial_selected. set_solver.
  - intros confirmed ids. unfold handleSend.
    case_decide as Hsize; [discriminate|]. destruct confirmed; [|discriminate].
    intros [= <-]. split; [reflexivity|]. split.
    + intros Hnil. apply Hsize. apply size_empty_iff. apply elements_empty_iff in Hnil.
      set_solver.
    + intros id Hid. apply list_elem_of_In, elem_of_elements in Hid.
      assert (Hin : id ∈ initial_selected cl) by set_solver.
      split; [exact Hin|]. apply elem_of_initial_selected in Hin.
      destruct Hin as (c & _ & _ & _ & Hne & _). exact Hne.
Qed.

(** X14: A click on a row flips the selection of that company and of no other, so
    two clicks on the same row restore the selection. *)
Theorem toggleSelect_flips (id : string) (selected : gset string) :
  (id ∈ toggleSelect id selected <-> id ∉ selected)
  /\ (forall other : string, other <> id ->
        (other ∈ toggleSelect id selected <-> other ∈ selected))
  /\ toggleSelect id (toggleSelect id selected) = selected.
Proof.
  unfold toggleSelect. split; [|split].
  - case_decide; set_solver.
  - intros other Hne. case_decide; set_solver.
  - case_decide as H1.
    + case_decide as H2; [set_solver|]. apply set_eq. intros x.
      destruct (decide (x = id)); set_solver.
    + case_decide as H2; [|set_solver]. apply set_eq. intros x.
      destruct (decide (x = id)); set_solver.
Qed.

(** X15: The header button compares sizes, and on the selections the dialog can
    reach that is comparing sets: with distinct company ids it clears the
    selection when every selectable company is selected, and selects them all
    otherwise. *)
Theorem toggleAll_selects_or_clears (cl : list CompanyListItem.t) (selected : gset string) :
  NoDup (map CompanyListItem.id cl) ->
  modal_selection cl selected ->
  (selected = initial_selected cl -> toggleAll cl selected = ∅)
  /\ (selected <> initial_selected cl -> toggleAll cl selected = initial_selected cl).
Proof.
  intros Hnd Hsel. pose proof (modal_selection_subseteq cl selected Hsel) as Hsub.
  assert (Hnd' : NoDup (map CompanyListItem.id (selectable cl))).
  { unfold selectable, approvedCompanies.
    assert (Hf : forall (p : CompanyListItem.t -> bool) l,
               NoDup (map CompanyListItem.id l) ->
               NoDup (map CompanyListItem.id (List.filter p l))).
    { intros p l. induction l as [|x l IH]; simpl; [auto|].
      rewrite !NoDup_cons. intros [Hx Hl]. destruct (p x); simpl; [|auto].
      rewrite NoDup_cons. split; [|auto].
      rewrite list_elem_of_In, in_map_iff in *. intros (y & Hy & Hin).
      apply filter_In in Hin. apply Hx. exists y. tauto. }
    auto. }
  assert (Hsize : size (initial_selected cl) = length (selectable cl)).
  { unfold initial_selected. rewrite size_list_to_set by exact Hnd'. apply length_map. }
  unfold toggleAll. split.
  - intros ->. rewrite Hsize. now case_decide.
  - intros Hne. case_decide as Heq; [|reflexivity].
    exfalso. apply Hne. apply set_subseteq_size_eq; [exact Hsub|]. lia.
Qed.

Lemma bulk_mail_recipients_safe_witness :
  handleSend true (initial_selected list_rows) = Some ["union"]
  /\ (forall id : string, In id ["union"] -> id <> "plusx").
Proof.
  assert (Hsend : handleSend true (initial_selected list_rows) = Some ["union"])
    by (vm_compute; reflexivity).
  split; [exact Hsend|].
  destruct (bulk_mail_recipients_safe list_rows (initial_selected list_rows)
              (selection_initial list_rows)) as (_ & H).
  destruct (H true ["union"] Hsend) as (_ & _ & Hids).
  intros id Hid. exact (proj2 (Hids id Hid)).
Defined.

Lemma toggleAll_selects_or_clears_witness :
  toggleAll list_rows (initial_selected list_rows) = ∅.
Proof.
  refine (proj1 (toggleAll_selects_or_clears list_rows (initial_selected list_rows)
                   _ (selection_initial list_rows)) eq_refl).
  vm_compute. repeat constructor; set_solver.
Defined.

(** * The company list of the side bar *)

(** X16: The side bar lists every company once: its rows are a rearrangement of
    the entries of the data, the operating company first when it is among
    them, the others after it with no row below a row of smaller amount. *)
Theorem CompanyList_sorted_complete (companies : gmap string CompanySettlement.t)
    (entries : list (string * CompanySettlement.t)) :
  entries ≡ₚ map_to_list companies ->
  CompanyList_sorted companies entries ≡ₚ entries
  /\ exists others : list (string * CompanySettlement.t),
       CompanyList_sorted companies entries
       = match companies !! "plusx" with
         | Some s => [("plusx", s)]
         | None => []
         end ++ others
       /\ Forall (fun entry => entry.1 <> "plusx") others
       /\ forall (i j : nat) (a b : string * CompanySettlement.t),
            (i < j)%nat -> others !! i = Some a -> others !! j = Some b ->
            CompanySettlement.settlement_amount b.2
            <= CompanySettlement.settlement_amount a.2.
Proof.
  intros Hperm. unfold CompanyList_sorted.
  set (keep := fun entry : string * CompanySettlement.t => negb (String.eqb entry.1 "plusx")).
  set (others := Array_sort by_settlement_amount_desc (List.filter keep entries)).
  assert (Hothers : others ≡ₚ List.filter keep entries) by apply Array_sort_Permutation.
  split.
  - destruct (companies !! "plusx") as [s|] eqn:E.
    + assert (Hrest : List.filter keep entries ≡ₚ map_to_list (delete "plusx" companies)).
      { etransitivity.
        - apply List_filter_Permutation. etransitivity; [exact Hperm|].
          symmetry. exact (map_to_list_delete companies "plusx" s E).
        - simpl. apply Permutation_refl', List_filter_all.
          apply List.Forall_forall. intros [k x] Hin.
          apply list_elem_of_In, elem_of_map_to_list in Hin.
          unfold keep. simpl. apply negb_true_iff, String.eqb_neq. intros ->.
          rewrite lookup_delete_eq in Hin. discriminate. }
      etransitivity; [apply perm_skip; etransitivity; [exact Hothers | exact Hrest]|].
      etransitivity; [exact (map_to_list_delete companies "plusx" s E)|].
      symmetry. exact Hperm.
    + etransitivity; [exact Hothers|]. apply Permutation_refl', List_filter_all.
      apply List.Forall_forall. intros [k x] Hin.
      apply (Permutation_in _ Hperm), list_elem_of_In, elem_of_map_to_list in Hin.
      unfold keep. simpl. apply negb_true_iff, String.eqb_neq. intros ->. congruence.
  - exists others. split; [now destruct (companies !! "plusx")|]. split.
    + apply List.Forall_forall. intros entry Hin.
      apply (Permutation_in _ Hothers), filter_In in Hin. destruct Hin as [_ Hk].
      unfold keep in Hk. apply negb_true_iff, String.eqb_neq in Hk. exact Hk.
    + intros i j a b Hij Ha Hb.
      exact (StronglySorted_lookup _ _ i j a b
               (sorted_entries_desc (List.filter keep entries)) Hij Ha Hb).
Qed.

Lemma CompanyList_sorted_complete_witness :
  map fst (CompanyList_sorted (list_to_map list_entries) list_entries)
  = ["plusx"; "union"; "other"]
  /\ CompanyList_sorted (list_to_map list_entries) list_entries ≡ₚ list_entries.
Proof.
  split; [reflexivity|].
  apply (CompanyList_sorted_complete (list_to_map list_entries) list_entries).
  symmetry. apply map_to_list_to_map. vm_compute. repeat constructor; set_solver.
Defined.

(** * The review page *)

(** Reduction of the setters and projections of the page, by need: the
    handlers chain many setters, and each projection of the result reads one
    cell. *)
Ltac review_red :=
  lazy beta iota zeta delta
    [restore_remarks restore_email_log restore_approval
     setSettlement setFullData setValidationIssues setIsEditing setApprovalStatus
     setSaveMessage setCompanyInfo setLoading setError setRemarks setAllRemarks
     setIsSaving setAllApprovalStatus setIsApproving setPdfFilename setEmailLog
     setIsSendingEmail on_page review_coherent review_approvedCount
     loadData handleSave handleApprove handleUnapprove handleSendEmail
     page period companyInfo loading error remarks allRemarks isSaving
     allApprovalStatus isApproving pdfFilename emailLog isSendingEmail
     companyId settlement fullData validationIssues isEditing editCourses
     approvalStatus saveMessage sessionStorage negb
     ArchiveData.data ArchiveData.approval_status ArchiveData.email_log
     ArchiveData.remarks].

Ltac unfold_setters := review_red.

Ltac break_state rs :=
  destruct rs as [[id0 s0 fd0 vi0 ie0 ec0 ap sm0 ss0] p ci ld er rm ar sv aas ia pf el ise].

Lemma cache_hit_Some (rs : ReviewState) (parsed : ParseResponse.t) (s : CompanySettlement.t) :
  cache_hit rs = Some (parsed, s) ->
  sessionStorage (page rs) !! "settlementData" = Some parsed
  /\ ParseResponse.period parsed = period rs
  /\ ParseResponse.companies parsed !! companyId (page rs) = Some s.
Proof.
  unfold cache_hit.
  destruct (sessionStorage (page rs) !! "settlementData") as [p|]; [|discriminate].
  destruct (String.eqb (ParseResponse.period p) (period rs)) eqn:E; [|discriminate].
  destruct (ParseResponse.companies p !! companyId (page rs)) as [s0|] eqn:Es; [|discriminate].
  intros [= <- <-]. apply String.eqb_eq in E. auto.
Qed.

Section Coherence.

Variable fmt : Z -> string.

Lemma loadData_coherent (archive : Outcome ArchiveData.t) (rs : ReviewState) :
  review_coherent fmt rs -> review_coherent fmt (loadData fmt archive rs).
Proof.
  break_state rs. intros Hco. unfold loadData. cbv beta zeta.
  destruct (cache_hit _) as [[parsed s]|] eqn:Hc.
  - apply cache_hit_Some in Hc. destruct Hc as (_ & _ & Hc). simpl in Hc.
    destruct Hco as [_ Ha]. simpl in Ha.
    destruct archive as [[d [m1|] [m2|] [m3|]]|err]; review_red;
      try destruct (m2 !! id0); review_red; auto.
  - clear Hc. destruct Hco as [Hs Ha]. simpl in Hs, Ha.
    destruct (nonempty _);
      [destruct archive as [[d [m1|] [m2|] [m3|]]|err]|]; review_red;
      try (destruct (ParseResponse.companies d !! id0) as [s|] eqn:Es); review_red;
      try destruct (m2 !! id0); review_red; auto.
Qed.

Lemma handleStartEdit_coherent (rs : ReviewState) :
  review_coherent fmt rs -> review_coherent fmt (on_page handleStartEdit rs).
Proof.
  break_state rs. unfold handleStartEdit, isApproved. review_red.
  destruct s0; [|auto]. destruct ap as [[[] ? ?]|]; review_red; auto.
Qed.

Lemma handleEditCourse_coherent (idx : nat) (fld : EditField) (value : Z)
    (rs : ReviewState) (st' : PageState) :
  handleEditCourse idx fld value (page rs) = Some st' ->
  review_coherent fmt rs -> review_coherent fmt (on_page (fun _ => st') rs).
Proof.
  break_state rs. unfold handleEditCourse. review_red.
  destruct (editCourses_updater _ _ _ _); [|discriminate].
  intros [= <-]. review_red. auto.
Qed.

Lemma handleApplyEdits_coherent (rs : ReviewState) :
  review_coherent fmt rs -> review_coherent fmt (on_page (handleApplyEdits fmt) rs).
Proof.
  break_state rs. unfold handleApplyEdits. review_red.
  destruct s0 as [s|], fd0 as [fd|]; review_red; auto.
  intros [_ Ha]. split; [|exact Ha]. split; [apply lookup_insert_eq | reflexivity].
Qed.

Lemma handleSave_coherent (saved : Outcome unit) (rs : ReviewState) :
  review_coherent fmt rs -> review_coherent fmt (handleSave saved rs).
Proof.
  break_state rs. review_red. destruct fd0; [|auto]. destruct saved; review_red; auto.
Qed.

Lemma handleApprove_coherent (confirmed : bool) (saved : Outcome unit)
    (approved : Outcome ApproveResult.t) (rs : ReviewState) :
  review_coherent fmt rs -> review_coherent fmt (handleApprove confirmed saved approved rs).
Proof.
  break_state rs. review_red. destruct fd0; [|auto].
  destruct confirmed; [|auto]. destruct saved; [destruct approved|]; review_red; auto.
  intros [Hs _]. split; [exact Hs|]. now rewrite lookup_insert_eq.
Qed.

Lemma handleUnapprove_coherent (confirmed : bool) (unapproved : Outcome unit)
    (rs : ReviewState) :
  review_coherent fmt rs -> review_coherent fmt (handleUnapprove confirmed unapproved rs).
Proof.
  break_state rs. review_red. destruct confirmed; [|auto].
  destruct unapproved; review_red; auto.
  intros [Hs _]. split; [exact Hs|]. now rewrite lookup_insert_eq.
Qed.

Lemma handleSendEmail_coherent (confirmed : bool) (now : string)
    (sent : Outcome SendResult.t) (rs : ReviewState) :
  review_coherent fmt rs -> review_coherent fmt (handleSendEmail confirmed now sent rs).
Proof.
  break_state rs. review_red. destruct (nonempty p); [|auto].
  destruct (nonempty _); [|auto]. destruct confirmed; [|auto].
  destruct sent; review_red; auto.
Qed.

Lemma review_step_coherent (rs rs' : ReviewState) :
  review_step fmt rs rs' -> review_coherent fmt rs -> review_coherent fmt rs'.
Proof.
  destruct 1.
  - apply loadData_coherent.
  - apply handleStartEdit_coherent.
  - now apply (handleEditCourse_coherent idx fld value).
  - break_state rs. review_red. auto.
  - apply handleApplyEdits_coherent.
  - break_state rs. review_red. auto.
  - apply handleSave_coherent.
  - apply handleApprove_coherent.
  - apply handleUnapprove_coherent.
  - apply handleSendEmail_coherent.
Qed.

Lemma review_step_route (rs rs' : ReviewState) :
  review_step fmt rs rs' ->
  companyId (page rs') = companyId (page rs) /\ period rs' = period rs.
Proof.
  destruct 1.
  - break_state rs. unfold loadData. cbv beta zeta.
    destruct (cache_hit _) as [[parsed s]|];
      [destruct archive as [[d [m1|] [m2|] [m3|]]|err]
      |destruct (nonempty _);
       [destruct archive as [[d [m1|] [m2|] [m3|]]|err]|]]; review_red;
      try (destruct (ParseResponse.companies d !! id0)); review_red;
      try destruct (m2 !! id0); review_red; auto.
  - break_state rs. unfold handleStartEdit, isApproved. review_red.
    destruct s0; [destruct ap as [[[] ? ?]|]|]; auto.
  - break_state rs. unfold handleEditCourse in H. revert H. review_red.
    destruct (editCourses_updater _ _ _ _); [|discriminate].
    intros [= <-]. auto.
  - break_state rs. auto.
  - break_state rs. unfold handleApplyEdits. review_red. destruct s0, fd0; auto.
  - break_state rs. auto.
  - break_state rs. review_red. destruct fd0; [destruct saved|]; auto.
  - break_state rs. review_red. destruct fd0; [|auto].
    destruct confirmed; [|auto]. destruct saved; [destruct approved|]; auto.
  - break_state rs. review_red. destruct confirmed; [|auto]. destruct unapproved; auto.
  - break_state rs. review_red. destruct (nonempty p); [|auto].
    destruct (nonempty _); [|auto]. destruct confirmed; [|auto]. destruct sent; auto.
Qed.

End Coherence.

(** X17: Whatever happens on the review page after it is mounted (loading from
    the cache or the archive, opening, editing, cancelling and applying the
    editor, typing remarks, saving, approving, withdrawing approval, sending
    mail, each succeeding or failing), the page stays coherent: either nothing
    is loaded and no issue is shown, or the settlement shown is the entry of
    the company in the data shown and the issues shown are exactly the issues
    of that settlement; and the approval shown is the entry of the company in
    the map of all approvals.  The company and the period never change. *)
Theorem review_page_coherent (fmt : Z -> string) (id quarter : string)
    (storage : gmap string ParseResponse.t) (rs : ReviewState) :
  review_reachable fmt id quarter storage rs ->
  review_coherent fmt rs /\ companyId (page rs) = id /\ period rs = quarter.
Proof.
  induction 1 as [| rs rs' _ (IH & Hid & Hp) Hstep].
  - repeat split.
  - split; [now apply (review_step_coherent fmt rs)|].
    destruct (review_step_route fmt rs rs' Hstep) as [-> ->]. auto.
Qed.

Lemma review_page_coherent_witness :
  validationIssues
    (page (loadData won (Rejected OtherValue)
             (initial_review "union" "2025-Q4" (<["settlementData" := list_data]> ∅))))
  = validateSettlement won (union_partner 500).
Proof.
  destruct (review_page_coherent won "union" "2025-Q4"
              (<["settlementData" := list_data]> ∅)
              (loadData won (Rejected OtherValue)
                 (initial_review "union" "2025-Q4" (<["settlementData" := list_data]> ∅))))
    as ((Hshown & _) & _ & _).
  - eapply reachable_step; [apply reachable_initial | apply step_load].
  - exact (proj2 Hshown).
Defined.

(** ** Approval *)

(** X18: An approval is recorded exactly when data is loaded, the user
    confirmed, the archive was saved and the approval call succeeded: then
    the company is approved by "admin" at the time the server reports, in the
    page and in the map of all approvals (the entries of the other companies
    staying as they were), and the editor no longer opens.  When nothing is
    loaded, the user declined, or either call failed, the approval of the
    page, the map and the file name are as before. *)
Theorem approval_needs_full_success (confirmed : bool) (saved : Outcome unit)
    (approved : Outcome ApproveResult.t) (rs : ReviewState) :
  let rs' := handleApprove confirmed saved approved rs in
  (forall (fd : ParseResponse.t) (u : unit) (result : ApproveResult.t),
     fullData (page rs) = Some fd -> confirmed = true ->
     saved = Resolved u -> approved = Resolved result ->
     approvalStatus (page rs')
     = Some {| ApprovalStatus.approved := true;
               ApprovalStatus.approved_at := ApproveResult.approved_at result;
               ApprovalStatus.approved_by := Some "admin" |}
     /\ allApprovalStatus rs' !! companyId (page rs) = approvalStatus (page rs')
     /\ (forall k, k <> companyId (page rs) ->
           allApprovalStatus rs' !! k = allApprovalStatus rs !! k)
     /\ pdfFilename rs' = truthy (ApproveResult.pdf_file result)
     /\ isApproved (page rs') = true
     /\ on_page handleStartEdit rs' = rs')
  /\ (fullData (page rs) = None \/ confirmed = false
      \/ (exists err, saved = Rejected err) \/ (exists err, approved = Rejected err) ->
      approvalStatus (page rs') = approvalStatus (page rs)
      /\ allApprovalStatus rs' = allApprovalStatus rs
      /\ pdfFilename rs' = pdfFilename rs).
Proof.
  break_state rs. cbv zeta. review_red. split.
  - intros fd u result -> -> -> ->. review_red.
    split; [reflexivity|]. split; [apply lookup_insert_eq|].
    split; [intros k Hk; now apply lookup_insert_ne|].
    split; [reflexivity|].
    unfold handleStartEdit, isApproved. review_red.
    split; [reflexivity|]. now destruct s0.
  - intros Hfail.
    destruct fd0 as [fd|]; [|auto].
    destruct confirmed; [|auto].
    destruct saved as [u|err]; [|auto].
    destruct approved as [result|err]; [|auto].
    destruct Hfail as [H|[H|[[err H]|[err H]]]]; discriminate H.
Qed.

(** X19: Withdrawing an approval, when the user confirmed and the server
    accepted, marks the company as not approved in the page and in the map of
    all approvals, forgets the file name, and lets the editor open again on a
    copy of the courses of the settlement.  When the user declined or the
    call failed, the approval of the page, the map and the file name are as
    before. *)
Theorem unapprove_reopens_editor (confirmed : bool) (unapproved : Outcome unit)
    (rs : ReviewState) :
  let rs' := handleUnapprove confirmed unapproved rs in
  (forall u : unit, confirmed = true -> unapproved = Resolved u ->
     approvalStatus (page rs')
     = Some {| ApprovalStatus.approved := false;
               ApprovalStatus.approved_at := None;
               ApprovalStatus.approved_by := None |}
     /\ isApproved (page rs') = false
     /\ allApprovalStatus rs' !! companyId (page rs) = approvalStatus (page rs')
     /\ (forall k, k <> companyId (page rs) ->
           allApprovalStatus rs' !! k = allApprovalStatus rs !! k)
     /\ pdfFilename rs' = None
     /\ forall s, settlement (page rs) = Some s ->
          isEditing (page (on_page handleStartEdit rs')) = true
          /\ editCourses (page (on_page handleStartEdit rs')) = CompanySettlement.courses s)
  /\ (confirmed = false \/ (exists err, unapproved = Rejected err) ->
      approvalStatus (page rs') = approvalStatus (page rs)
      /\ allApprovalStatus rs' = allApprovalStatus rs
      /\ pdfFilename rs' = pdfFilename rs).
Proof.
  break_state rs. cbv zeta. review_red. split.
  - intros u -> ->. review_red. unfold handleStartEdit, isApproved. review_red.
    split; [reflexivity|]. split; [reflexivity|]. split; [apply lookup_insert_eq|].
    split; [intros k Hk; now apply lookup_insert_ne|]. split; [reflexivity|].
    intros s [= ->]. split; [reflexivity | apply map_id].
  - intros Hfail.
    destruct confirmed; [|auto].
    destruct unapproved as [u|err]; [|auto].
    destruct Hfail as [H|[err H]]; discriminate H.
Qed.

Lemma Object_values_insert_Permutation {A : Type} (obj : gmap string A) (k : string) (v : A) :
  Object_values (<[k := v]> obj) ≡ₚ v :: Object_values (delete k obj).
Proof.
  unfold Object_values. rewrite <- insert_delete_eq.
  change (v :: (map_to_list (delete k obj)).*2)
    with (((k, v) :: map_to_list (delete k obj)).*2).
  apply fmap_Permutation, map_to_list_insert, lookup_delete_eq.
Qed.

Lemma Object_values_lookup_Permutation {A : Type} (obj : gmap string A) (k : string) (v : A) :
  obj !! k = Some v -> Object_values obj ≡ₚ v :: Object_values (delete k obj).
Proof.
  intros H. rewrite <- (insert_id obj k v H) at 1. apply Object_values_insert_Permutation.
Qed.

Lemma approved_count_insert (m : gmap string ApprovalStatus.t) (k : string)
    (a : ApprovalStatus.t) :
  (length (List.filter ApprovalStatus.approved (Object_values (<[k := a]> m)))
   + (if match m !! k with Some old => ApprovalStatus.approved old | None => false end
      then 1 else 0)
   = length (List.filter ApprovalStatus.approved (Object_values m))
     + (if ApprovalStatus.approved a then 1 else 0))%nat.
Proof.
  rewrite (Permutation_length
             (List_filter_Permutation _ _ _ (Object_values_insert_Permutation m k a))).
  destruct (m !! k) as [old|] eqn:E.
  - rewrite (Permutation_length
               (List_filter_Permutation _ _ _ (Object_values_lookup_Permutation m k old E))).
    simpl. destruct (ApprovalStatus.approved a), (ApprovalStatus.approved old); simpl; lia.
  - rewrite (delete_id _ _ E). simpl. destruct (ApprovalStatus.approved a); simpl; lia.
Qed.

(** X20: The count of approved companies in the action bar moves with the
    approval of the page: a successful approval raises it by one when the
    company was not counted before and leaves it when it was; a successful
    withdrawal lowers it by one when the company was counted and leaves it
    otherwise. *)
Theorem approved_count_follows (rs : ReviewState) (fd : ParseResponse.t)
    (result : ApproveResult.t) (u : unit) :
  fullData (page rs) = Some fd ->
  let counted :=
    match allApprovalStatus rs !! companyId (page rs) with
    | Some a => ApprovalStatus.approved a
    | None => false
    end in
  review_approvedCount (handleApprove true (Resolved u) (Resolved result) rs)
    = (review_approvedCount rs + (if counted then 0 else 1))%nat
  /\ (review_approvedCount (handleUnapprove true (Resolved u) rs)
      + (if counted then 1 else 0))%nat
     = review_approvedCount rs.
Proof.
  break_state rs. review_red. intros [= ->]. cbv zeta. review_red. split.
  - pose proof (approved_count_insert aas id0
                  {| ApprovalStatus.approved := true;
                     ApprovalStatus.approved_at := ApproveResult.approved_at result;
                     ApprovalStatus.approved_by := Some "admin" |}) as H.
    simpl in H. destruct (match aas !! id0 with
                          | Some a => ApprovalStatus.approved a | None => false end); lia.
  - pose proof (approved_count_insert aas id0
                  {| ApprovalStatus.approved := false;
                     ApprovalStatus.approved_at := None;
                     ApprovalStatus.approved_by := None |}) as H.
    simpl in H. destruct (match aas !! id0 with
                          | Some a => ApprovalStatus.approved a | None => false end); lia.
Qed.

Lemma approved_count_follows_witness :
  review_approvedCount
    (handleApprove true (Resolved tt)
       (Resolved {| ApproveResult.approved_at := Some "2026-02-12T15:30:00";
                    ApproveResult.pdf_file := None |}) loaded_review) = 1%nat.
Proof.
  destruct (approved_count_follows loaded_review list_data
              {| ApproveResult.approved_at := Some "2026-02-12T15:30:00";
                 ApproveResult.pdf_file := None |} tt eq_refl) as [H _].
  rewrite H. vm_compute. reflexivity.
Defined.

(** ** Saving and mail *)

(** X21: On a coherent page the request to save the archive carries the data
    shown: the entry of the company in the request is the settlement shown,
    with the remarks typed for it, next to the remarks of the other companies
    as they were; without data no request is made. *)
Theorem save_request_carries_page (fmt : Z -> string) (rs : ReviewState) :
  review_coherent fmt rs ->
  match saveArchive_request rs with
  | Some request =>
      ArchiveRequest.companies request !! companyId (page rs) = settlement (page rs)
      /\ is_Some (settlement (page rs))
      /\ ArchiveRequest.remarks request !! companyId (page rs) = Some (remarks rs)
      /\ forall k, k <> companyId (page rs) ->
           ArchiveRequest.remarks request !! k = allRemarks rs !! k
  | None => settlement (page rs) = None /\ fullData (page rs) = None
  end.
Proof.
  intros [Hshown _]. unfold saveArchive_request.
  destruct (settlement (page rs)) as [s|], (fullData (page rs)) as [fd|];
    simpl; try contradiction; [|auto].
  destruct Hshown as [Hentry _]. split; [exact Hentry|]. split; [eauto|].
  split; [apply lookup_insert_eq|]. intros k Hk. now apply lookup_insert_ne.
Qed.

Lemma save_request_carries_page_witness :
  (ArchiveRequest.companies <$> saveArchive_request loaded_review) ≫= (.!! "union")
  = Some (union_partner 500).
Proof.
  pose proof (save_request_carries_page won loaded_review) as H.
  assert (Hc : review_coherent won loaded_review) by (split; [split|]; reflexivity).
  specialize (H Hc).
  destruct (saveArchive_request loaded_review) as [request|] eqn:E.
  - simpl. destruct H as (H & _). exact H.
  - destruct H as (H & _). discriminate H.
Defined.

(** X22: The mail log only grows, one entry per mail sent: [handleSendEmail]
    either leaves the log as it is, or appends one entry stamped with the
    time of sending, marked as sent and naming a recipient; it appends exactly
    when the page has a period, the company has a contact or tax address, the
    user confirmed and the call succeeded. *)
Theorem mail_log_appends_on_success (confirmed : bool) (now : string)
    (sent : Outcome SendResult.t) (rs : ReviewState) :
  let rs' := handleSendEmail confirmed now sent rs in
  let email :=
    or_else (CompanyInfo.contact_email <$> companyInfo rs)
            (or_else (CompanyInfo.tax_email <$> companyInfo rs) EmptyString) in
  (exists (result : SendResult.t) (entry : EmailLogEntry.t),
     emailLog rs' = emailLog rs ++ [entry]
     /\ confirmed = true /\ sent = Resolved result
     /\ period rs <> EmptyString /\ email <> EmptyString
     /\ EmailLogEntry.sent_at entry = now
     /\ EmailLogEntry.status entry = "sent"
     /\ EmailLogEntry.recipient entry <> EmptyString)
  \/ (emailLog rs' = emailLog rs
      /\ (confirmed = false \/ (exists err, sent = Rejected err)
          \/ period rs = EmptyString \/ email = EmptyString)).
Proof.
  cbv zeta. unfold handleSendEmail.
  set (email := or_else (CompanyInfo.contact_email <$> companyInfo rs)
                        (or_else (CompanyInfo.tax_email <$> companyInfo rs) EmptyString)).
  destruct (period rs) as [|c p] eqn:Ep; simpl; [right; auto|].
  destruct email as [|e mail] eqn:Ee; simpl; [right; auto|].
  destruct confirmed; simpl; [|right; auto].
  destruct sent as [result|err]; [|right; eauto].
  left. eexists result, _. unfold_setters. simpl.
  split; [reflexivity|]. repeat split; try discriminate.
  destruct (SendResult.recipient result) as [[|? ?]|]; simpl; discriminate.
Qed.

(** X23: A download never asks for an empty file name: the name the server gave
    at approval when there is one, and otherwise a name built from the company
    and, for a quarter period, the last two digits of the year and the
    quarter.  Without a period nothing is asked for. *)
Theorem download_filename_nonempty (rs : ReviewState) :
  (period rs = EmptyString <-> download_filename rs = None)
  /\ (forall f, download_filename rs = Some f -> f <> EmptyString)
  /\ (forall c rest, pdfFilename rs = Some (String c rest) ->
        period rs <> EmptyString -> download_filename rs = Some (String c rest))
  /\ (forall y1 y2 y3 y4 q name,
        match_quarter (period rs)
          = Some (String y1 (String y2 (String y3 (String y4 EmptyString))), q) ->
        truthy (pdfFilename rs) = None ->
        name = or_else (CompanyInfo.name <$> companyInfo rs)
                 (or_else (CompanySettlement.company_name <$> settlement (page rs))
                          (companyId (page rs))) ->
        download_filename rs
        = Some ("쉐어엑스_ " +:+ name +:+ " " +:+ String y3 (String y4 EmptyString)
                +:+ "년 " +:+ q +:+ "Q 정산서.pdf")).
Proof.
  unfold download_filename. split; [|split; [|split]].
  - destruct (period rs); simpl; split; intros H; try reflexivity; discriminate.
  - intros f. destruct (nonempty (period rs)); [|discriminate].
    intros [= <-]. destruct (pdfFilename rs) as [[|? ?]|]; simpl; discriminate.
  - intros c rest Hf Hp. destruct (period rs); [contradiction|]. simpl. now rewrite Hf.
  - intros y1 y2 y3 y4 q name Hm Hf ->. rewrite Hm.
    destruct (period rs); [discriminate Hm|]. simpl.
    destruct (pdfFilename rs) as [[|? ?]|]; simpl in *; try discriminate; reflexivity.
Qed.
